(** * scientist: running a control behavior next to its candidates

    A shallow embedding of [scientist.go].  [Run] observes the control
    behavior and every candidate of an experiment, classifies each candidate
    against the control ([matching], [ignoring], [processObservation]) and
    hands the assembled [Result] to the publish and error-report sinks.

    What the embedding keeps and what it leaves out:
    - an [interface{}] is [option V] for an arbitrary carrier [V] of dynamic
      values, [None] being the nil interface;
    - a [*Observation] is [option Observation], [None] being the nil pointer;
      a slice is a list, and a store [s[i] = x] checks its index;
    - a run-time panic (negative [make] length, index out of range, nil
      dereference) is the [Panic] outcome;
    - the callbacks invoked on the goroutine of [Run] (before-run hook,
      comparator, ignore predicates, publisher, error reporter) are functions
      of their arguments, and every invocation is written to a trace of
      [Event]s, so that "is invoked" and "is handed" are statements about
      the trace;
    - the order in which [range] walks the [behaviors] map, the order in which
      results arrive on [resultChan], and which [select] branch a goroutine
      takes are not fixed by the program: they are the [Schedule] of a run;
    - a behavior is the pair (value, error) it returns; a behavior that
      panics or never returns is outside the model;
    - wall-clock fields ([Started], [Runtime]) and the back pointer
      [Experiment] of [Observation] and [Result] are not represented, nor
      are [CleanedValue] and [MismatchError], which only follow it. *)

From Stdlib Require Import Ascii String.
From stdpp Require Import base option list strings gmap.

Set Implicit Arguments.
Unset Strict Implicit.

(** ** Errors *)

(** A non-nil Go [error]: the values that reach this code are those made by
    [errors.New] and [fmt.Errorf] ([errorString]), the error of an expired
    context ([deadlineExceededError]), and values of caller-defined error
    types ([customError], told apart by [dyn] even when the text is the
    same). *)
Inductive error : Type :=
| errorString (s : string)
| deadlineExceededError
| customError (dyn : nat) (s : string).

(** The method [Error() string]. *)
Definition Error (err : error) : string :=
  match err with
  | errorString s => s
  | deadlineExceededError => "context deadline exceeded"
  | customError _ s => s
  end.

(** ** [fmt.Errorf] with the verb [%q] *)

Definition lowerhex (n : N) : ascii :=
  match n with
  | 0 => "0" | 1 => "1" | 2 => "2" | 3 => "3" | 4 => "4" | 5 => "5"
  | 6 => "6" | 7 => "7" | 8 => "8" | 9 => "9" | 10 => "a" | 11 => "b"
  | 12 => "c" | 13 => "d" | 14 => "e" | _ => "f"
  end%N%char.

Definition backslash : ascii := "092"%char.
Definition dquote : ascii := "034"%char.

(** One byte of a string under [strconv.Quote].  Bytes from 128 on belong to
    multi-byte runes, which Go copies when they are printable; they are
    copied here. *)
Definition quoteByte (c : ascii) : string :=
  let n := N_of_ascii c in
  if (n =? 34)%N then String backslash (String dquote EmptyString)
  else if (n =? 92)%N then String backslash (String backslash EmptyString)
  else if (n =? 7)%N then String backslash "a"
  else if (n =? 8)%N then String backslash "b"
  else if (n =? 12)%N then String backslash "f"
  else if (n =? 10)%N then String backslash "n"
  else if (n =? 13)%N then String backslash "r"
  else if (n =? 9)%N then String backslash "t"
  else if (n =? 11)%N then String backslash "v"
  else if ((n <? 32) || (n =? 127))%N then
    String backslash (String "x" (String (lowerhex (n / 16)) (String (lowerhex (n mod 16)) EmptyString)))
  else String c EmptyString.

Fixpoint quoteBytes (s : string) : string :=
  match s with
  | EmptyString => EmptyString
  | String c s' => quoteByte c +:+ quoteBytes s'
  end.

Definition Quote (s : string) : string :=
  String dquote (quoteBytes s +:+ String dquote EmptyString).

(** ** Outcomes *)

(** What a call comes to: a value, or a run-time panic with its message. *)
Inductive outcome (A : Type) : Type :=
| Ok (a : A)
| Panic (msg : string).

Arguments Panic {A} msg.

(** ** Data *)

Section Model.

Variable V : Type.

Definition interface : Type := option V.

(** [type Observation struct]. *)
Record Observation : Type := {
  Name : string;
  Value : interface;
  Err : option error
}.

(** [type ResultError struct { Operation string; Experiment string; Err error }];
    the fields [Experiment] and [Err] are [ExperimentName] and [Cause] here,
    their Go names being taken by the experiment type and by [Observation]. *)
Record ResultError : Type := {
  Operation : string;
  ExperimentName : string;
  Cause : error
}.

(** [type Result struct]. *)
Record Result : Type := {
  Control : option Observation;
  Observations : list (option Observation);
  Candidates : list (option Observation);
  Ignored : list (option Observation);
  Mismatched : list (option Observation);
  Errors : list ResultError
}.

(** [type observationResult struct]: what a goroutine sends on [resultChan]. *)
Record observationResult : Type := {
  name : string;
  obs : option Observation;
  err : option error
}.

(** A [behaviorFunc] that is not nil, [func() (interface{}, error)]. *)
Definition behaviorFunc : Type := unit -> interface * option error.

(** Modelled from the spec: the struct [Experiment] is declared outside
    [scientist.go].  Its fields are the ones [scientist.go] reads: the name,
    the [behaviors] map (a registered function may be nil), the comparator
    [(control, candidate) -> (bool, error)], the ordered ignore predicates of
    the same shape, the concurrency flag, the optional timeout (nanoseconds)
    and the publish sink.  [before] is what the before-run hook returns. *)
Record Experiment : Type := {
  ExpName : string;
  behaviors : gmap string (option behaviorFunc);
  comparator : interface -> interface -> bool * option error;
  ignores : list (interface -> interface -> bool * option error);
  runConcurrently : bool;
  timeout : option Z;
  before : unit -> option error;
  publisher : Result -> option error
}.

(** [func (r Result) IsMismatched() bool] and its siblings. *)
Definition IsMismatched (r : Result) : bool := negb (Nat.eqb (length (Mismatched r)) 0).
Definition IsIgnored (r : Result) : bool := negb (Nat.eqb (length (Ignored r)) 0).
Definition IsMatched (r : Result) : bool :=
  if IsMismatched r || IsIgnored r then false else true.

(** ** Effects: a trace of callback invocations, and panics *)

Inductive Event : Type :=
| EvBeforeRun
| EvCompare (control candidate : interface)
| EvIgnore (idx : nat) (control candidate : interface)
| EvPublish (r : Result)
| EvReportErrors (errs : list ResultError).

Definition M (A : Type) : Type := list Event * outcome A.

(** Sequencing appends the traces and stops at the first panic. *)
#[global] Instance M_ret : MRet M := fun A a => ([], Ok a).

#[global] Instance M_bind : MBind M := fun A B f m =>
  match m with
  | (t, Ok a) => let (t', o) := f a in (t ++ t', o)
  | (t, Panic msg) => (t, Panic msg)
  end.

Definition panic {A : Type} (msg : string) : M A := ([], Panic msg).

Definition emit (ev : Event) : M unit := ([ev], Ok tt).

(** ** Pointers and slices *)

(** Reading a field through a pointer. *)
Definition deref (p : option Observation) : M Observation :=
  match p with
  | Some o => mret o
  | None => panic "invalid memory address or nil pointer dereference"
  end.

(** [make([]*Observation, n)]: [n] nil pointers. *)
Definition make (n : Z) : M (list (option Observation)) :=
  if (n <? 0)%Z then panic "makeslice: len out of range"
  else mret (replicate (Z.to_nat n) None).

(** [s[i] = x]. *)
Definition store (s : list (option Observation)) (i : nat) (x : option Observation)
  : M (list (option Observation)) :=
  if decide (i < length s) then mret (<[i:=x]> s)
  else panic "index out of range".

(** [m[k]] on the behaviors map: nil when the key is absent. *)
Definition index (m : gmap string (option behaviorFunc)) (k : string) : option behaviorFunc :=
  default None (m !! k).

(** [for _, x := range l { s = body(s, x) }]. *)
Fixpoint forEach (S A : Type) (body : S -> A -> M S) (s : S) (l : list A) : M S :=
  match l with
  | [] => mret s
  | x :: l' => s' ← body s x; forEach body s' l'
  end.

(** Field updates of a [Result]. *)
Definition setControl (r : Result) (c : option Observation) : Result :=
  {| Control := c; Observations := Observations r; Candidates := Candidates r;
     Ignored := Ignored r; Mismatched := Mismatched r; Errors := Errors r |}.
Definition setObservations (r : Result) (l : list (option Observation)) : Result :=
  {| Control := Control r; Observations := l; Candidates := Candidates r;
     Ignored := Ignored r; Mismatched := Mismatched r; Errors := Errors r |}.
Definition setCandidates (r : Result) (l : list (option Observation)) : Result :=
  {| Control := Control r; Observations := Observations r; Candidates := l;
     Ignored := Ignored r; Mismatched := Mismatched r; Errors := Errors r |}.
Definition setIgnored (r : Result) (l : list (option Observation)) : Result :=
  {| Control := Control r; Observations := Observations r; Candidates := Candidates r;
     Ignored := l; Mismatched := Mismatched r; Errors := Errors r |}.
Definition setMismatched (r : Result) (l : list (option Observation)) : Result :=
  {| Control := Control r; Observations := Observations r; Candidates := Candidates r;
     Ignored := Ignored r; Mismatched := l; Errors := Errors r |}.
Definition setErrors (r : Result) (l : list ResultError) : Result :=
  {| Control := Control r; Observations := Observations r; Candidates := Candidates r;
     Ignored := Ignored r; Mismatched := Mismatched r; Errors := l |}.

(** ** The experiment's methods used by [Run] *)

(** Modelled from the spec: the method [resultErr] is declared outside
    [scientist.go]; an operation error is
    [{operation, experiment_name, error}]. *)
Definition resultErr (e : Experiment) (op : string) (err : error) : ResultError :=
  {| Operation := op; ExperimentName := ExpName e; Cause := err |}.

(** Modelled from the spec: the method [beforeRun] is declared outside
    [scientist.go]; [before_run() -> Error?] is called once before any
    behavior executes. *)
Definition beforeRun (e : Experiment) : M (option error) :=
  _ ← emit EvBeforeRun; mret (before e tt).

(** The call [e.publisher(r)]. *)
Definition publish (e : Experiment) (r : Result) : M (option error) :=
  _ ← emit (EvPublish r); mret (publisher e r).

(** The call [e.errorReporter(errs...)]. *)
Definition errorReporter (e : Experiment) (errs : list ResultError) : M unit :=
  emit (EvReportErrors errs).

(** ** Observing one behavior *)

Definition behaviorNotFound (e : Experiment) (name : string) : error :=
  errorString ("Behavior " +:+ Quote name +:+ " not found for experiment " +:+ Quote (ExpName e)).

Definition observe (e : Experiment) (name : string) (b : option behaviorFunc) : Observation :=
  let b := match b with
           | None => index (behaviors e) name
           | Some _ => b
           end in
  match b with
  | None => {| Name := name; Value := None; Err := Some (behaviorNotFound e name) |}
  | Some f => let '(v, err) := f tt in {| Name := name; Value := v; Err := err |}
  end.

(** ** Classifying a candidate *)

Definition matching (e : Experiment) (control candidate : option Observation)
  : M (bool * option error) :=
  c ← deref control;
  d ← deref candidate;
  match Err c, Err d with
  | None, None =>
      (* neither returned errors *)
      _ ← emit (EvCompare (Value c) (Value d));
      mret (comparator e (Value c) (Value d))
  | Some cerr, Some derr =>
      (* both returned errors *)
      mret (String.eqb (Error cerr) (Error derr), None)
  | _, _ =>
      (* returned different errors *)
      mret (false, None)
  end.

Fixpoint ignoringFrom (idx : nat)
    (preds : list (interface -> interface -> bool * option error))
    (control candidate : option Observation) : M (bool * option error) :=
  match preds with
  | [] => mret (false, None)
  | i :: preds' =>
      c ← deref control;
      d ← deref candidate;
      _ ← emit (EvIgnore idx (Value c) (Value d));
      let '(ok, err) := i (Value c) (Value d) in
      match err with
      | Some _ => mret (false, err)
      | None => if ok then mret (true, None)
                else ignoringFrom (S idx) preds' control candidate
      end
  end.

Definition ignoring (e : Experiment) (control candidate : option Observation)
  : M (bool * option error) :=
  ignoringFrom 0 (ignores e) control candidate.

Definition processObservation (e : Experiment) (r : Result)
    (control candidate : option Observation) : M Result :=
  '(ok, err) ← matching e control candidate;
  let '(ok, r) := match err with
                  | Some err => (false, setErrors r (Errors r ++ [resultErr e "compare" err]))
                  | None => (ok, r)
                  end in
  if ok then mret r
  else
    '(ignored, err) ← ignoring e control candidate;
    let '(ignored, r) := match err with
                         | Some err => (false, setErrors r (Errors r ++ [resultErr e "ignore" err]))
                         | None => (ignored, r)
                         end in
    if ignored then mret (setIgnored r (Ignored r ++ [candidate]))
    else mret (setMismatched r (Mismatched r ++ [candidate])).

(** ** Running an experiment *)

(** What the program leaves to the Go runtime during one call of [Run]:
    [rangeOrder] is the order in which [range e.behaviors] yields the keys of
    the map (Go fixes none); [arrival] lists, in the order their results are
    received from [resultChan], the behaviors together with the branch their
    goroutine's [select] took: [true] when the context was done before the
    observation was delivered. *)
Record Schedule : Type := {
  rangeOrder : list string;
  arrival : list (string * bool)
}.

(** [createContext]: the deadline of the context, if it has one.  Without a
    timeout the context is only done once [cancel] runs, after the [select]. *)
Definition createContext (e : Experiment) : option Z := timeout e.

(** The goroutine started for one behavior in concurrent mode, as the
    message it sends on [resultChan]. *)
Definition goroutine (e : Experiment) (behaviorName : string)
    (behavior : option behaviorFunc) (expired : bool) : observationResult :=
  match createContext e, expired with
  | Some _, true =>
      (* case <-ctx.Done() *)
      {| name := behaviorName;
         obs := Some {| Name := behaviorName; Value := None; Err := None |};
         err := Some deadlineExceededError |}
  | _, _ =>
      (* case obs := <-doneChan *)
      {| name := behaviorName;
         obs := Some (observe e behaviorName behavior);
         err := None |}
  end.

(** Body of the sequential loop over the behaviors. *)
Definition runSequentialBody (e : Experiment) (name : string)
    (st : Result * nat) (bname : string) : M (Result * nat) :=
  let '(r, i) := st in
  if String.eqb bname name then mret (r, i)
  else
    let c := Some (observe e bname (index (behaviors e) bname)) in
    cands ← store (Candidates r) i c;
    let r := setCandidates r cands in
    let i := i + 1 in
    observations ← store (Observations r) i c;
    let r := setObservations r observations in
    r ← processObservation e r (Control r) c;
    mret (r, i).

(** Body of the loop that receives from [resultChan]. *)
Definition runCollectBody (e : Experiment) (name : string)
    (st : Result * nat) (res : observationResult) : M (Result * nat) :=
  let '(r, i) := st in
  let '(Build_observationResult resName resObs resErr) := res in
  let r := match resErr with
           | Some terr => setErrors r (Errors r ++ [resultErr e "timeout" terr])
           | None => r
           end in
  if String.eqb resName name then
    let r := setControl r resObs in
    observations ← store (Observations r) 0 resObs;
    mret (setObservations r observations, i)
  else
    cands ← store (Candidates r) i resObs;
    let r := setCandidates r cands in
    observations ← store (Observations r) (i + 1) resObs;
    mret (setObservations r observations, i + 1).

(** Body of the loop that classifies the collected candidates. *)
Definition runClassifyBody (e : Experiment) (r : Result)
    (candidate : option Observation) : M Result :=
  match candidate with
  | Some _ => processObservation e r (Control r) candidate
  | None => mret r
  end.

Definition Run (e : Experiment) (name : string) (w : Schedule) : M Result :=
  let r := {| Control := None; Observations := []; Candidates := [];
              Ignored := []; Mismatched := []; Errors := [] |} in
  berr ← beforeRun e;
  let r := match berr with
           | Some berr => setErrors r (Errors r ++ [resultErr e "before_run" berr])
           | None => r
           end in
  let numBehaviors := Z.of_nat (size (behaviors e)) in
  cands ← make (numBehaviors - 1);
  let r := setCandidates r cands in
  observations ← make numBehaviors;
  let r := setObservations r observations in
  r ← (if negb (runConcurrently e) then
         let r := setControl r (Some (observe e name (index (behaviors e) name))) in
         observations ← store (Observations r) 0 (Control r);
         let r := setObservations r observations in
         '(r, _) ← forEach (runSequentialBody e name) (r, 0) (rangeOrder w);
         mret r
       else
         let results :=
           (fun a : string * bool =>
              goroutine e a.1 (index (behaviors e) a.1) a.2) <$> arrival w in
         '(r, _) ← forEach (runCollectBody e name) (r, 0) results;
         forEach (runClassifyBody e) r (Candidates r));
  perr ← publish e r;
  let r := match perr with
           | Some perr => setErrors r (Errors r ++ [resultErr e "publish" perr])
           | None => r
           end in
  _ ← (if decide (0 < length (Errors r)) then errorReporter e (Errors r) else mret tt);
  mret r.

(** ** Vocabulary of the statements *)

Definition emptyResult : Result :=
  {| Control := None; Observations := []; Candidates := [];
     Ignored := []; Mismatched := []; Errors := [] |}.

(** What [processObservation] does for one pair, run on an empty [Result]:
    the callbacks it invokes, and what it appends. *)
Definition classify (e : Experiment) (c d : Observation) : list Event * Result :=
  match processObservation e emptyResult (Some c) (Some d) with
  | (t, Ok delta) => (t, delta)
  | (t, Panic _) => (t, emptyResult)
  end.

(** [r] with the appended parts of [delta]. *)
Definition merge (r delta : Result) : Result :=
  {| Control := Control r; Observations := Observations r; Candidates := Candidates r;
     Ignored := Ignored r ++ Ignored delta;
     Mismatched := Mismatched r ++ Mismatched delta;
     Errors := Errors r ++ Errors delta |}.

(** The operation errors recorded for what the comparator and an ignore
    predicate return. *)
Definition compareErrors (e : Experiment) (merr : option error) : list ResultError :=
  match merr with Some x => [resultErr e "compare" x] | None => [] end.

Definition ignoreErrors (e : Experiment) (ierr : option error) : list ResultError :=
  match ierr with Some x => [resultErr e "ignore" x] | None => [] end.

(** The keys of the behaviors map. *)
Definition keys (e : Experiment) : list string := (map_to_list (behaviors e)).*1.

(** A schedule the Go runtime can produce: [range] yields every key once,
    and every behavior's goroutine sends one result. *)
Definition wfSchedule (e : Experiment) (w : Schedule) : Prop :=
  rangeOrder w ≡ₚ keys e ∧ (arrival w).*1 ≡ₚ keys e.

(** The observation of the behavior registered as [bname]. *)
Definition observed (e : Experiment) (bname : string) : Observation :=
  observe e bname (index (behaviors e) bname).

(** The placeholder recorded for a behavior whose context was done first. *)
Definition timedOut (bname : string) : Observation :=
  {| Name := bname; Value := None; Err := None |}.

(** Whether the goroutine of [bname] took the [ctx.Done()] branch. *)
Definition expired (e : Experiment) (w : Schedule) (bname : string) : bool :=
  match createContext e with
  | Some _ => bool_decide ((bname, true) ∈ arrival w)
  | None => false
  end.

(** The observation a run holds for [bname]. *)
Definition slot (e : Experiment) (w : Schedule) (bname : string) : Observation :=
  if runConcurrently e && expired e w bname then timedOut bname else observed e bname.

(** The behavior names of a slice of observation pointers. *)
Definition slotNames (l : list (option Observation)) : list (option string) :=
  (fun p => match p with Some o => Some (Name o) | None => None end) <$> l.

(** The non-control behaviors in the order [Run] meets them. *)
Definition candidateNames (e : Experiment) (name : string) (w : Schedule) : list string :=
  filter (fun n => n ≠ name)
         (if runConcurrently e then (arrival w).*1 else rangeOrder w).

(** [classify] over a sequence of candidates: the callbacks invoked, in
    order, and everything appended. *)
Definition classifyAll (e : Experiment) (c : Observation) (ds : list Observation)
  : list Event * Result :=
  (ds ≫= (fun d => (classify e c d).1),
   {| Control := None; Observations := []; Candidates := [];
      Ignored := ds ≫= (fun d => Ignored (classify e c d).2);
      Mismatched := ds ≫= (fun d => Mismatched (classify e c d).2);
      Errors := ds ≫= (fun d => Errors (classify e c d).2) |}).

(** Whether a goroutine with flag [flag] took the [ctx.Done()] branch. *)
Definition took (e : Experiment) (flag : bool) : bool :=
  match createContext e with Some _ => flag | None => false end.

(** The observation carried by the message of one goroutine. *)
Definition delivered (e : Experiment) (a : string * bool) : Observation :=
  if took e a.2 then timedOut a.1 else observed e a.1.

(** The control pointer after the messages [ms] have been received. *)
Definition lastControl (e : Experiment) (name : string) (c0 : option Observation)
    (ms : list (string * bool)) : option Observation :=
  foldl (fun acc a => if decide (a.1 = name) then Some (delivered e a) else acc) c0 ms.

(** The operation errors recorded before classification starts. *)
Definition beforeErrors (e : Experiment) : list ResultError :=
  match before e tt with Some x => [resultErr e "before_run" x] | None => [] end.

Definition arrivalErrors (e : Experiment) (ms : list (string * bool)) : list ResultError :=
  ms ≫= (fun a => if took e a.2 then [resultErr e "timeout" deadlineExceededError] else []).

Definition timeoutErrors (e : Experiment) (w : Schedule) : list ResultError :=
  if runConcurrently e then arrivalErrors e (arrival w) else [].

(** The [Result] of a run at the moment it is handed to the publisher. *)
Definition published (e : Experiment) (name : string) (w : Schedule) : Result :=
  let ctl := slot e w name in
  let cands := slot e w <$> candidateNames e name w in
  merge {| Control := Some ctl;
           Observations := Some ctl :: (Some <$> cands);
           Candidates := Some <$> cands;
           Ignored := []; Mismatched := [];
           Errors := beforeErrors e ++ timeoutErrors e w |}
        (classifyAll e ctl cands).2.

(** The [Result] a run returns. *)
Definition returned (e : Experiment) (name : string) (w : Schedule) : Result :=
  let r := published e name w in
  match publisher e r with
  | Some perr => setErrors r (Errors r ++ [resultErr e "publish" perr])
  | None => r
  end.

(** The callbacks a run invokes, in order. *)
Definition runTrace (e : Experiment) (name : string) (w : Schedule) : list Event :=
  EvBeforeRun
    :: (classifyAll e (slot e w name) (slot e w <$> candidateNames e name w)).1
    ++ EvPublish (published e name w)
    :: match Errors (returned e name w) with
       | [] => []
       | _ :: _ => [EvReportErrors (Errors (returned e name w))]
       end.

(** [e] with the concurrency flag and the timeout replaced. *)
Definition withMode (concurrent : bool) (t : option Z) (e : Experiment) : Experiment :=
  {| ExpName := ExpName e; behaviors := behaviors e; comparator := comparator e;
     ignores := ignores e; runConcurrently := concurrent; timeout := t;
     before := before e; publisher := publisher e |}.

(** A schedule under which [range] yields the behaviors in the order in
    which their results arrive under [w]. *)
Definition rangeAsArrival (w : Schedule) : Schedule :=
  {| rangeOrder := (arrival w).*1; arrival := arrival w |}.

(** Whether an event is an invocation of the comparator. *)
Definition isCompare (ev : Event) : bool :=
  match ev with EvCompare _ _ => true | _ => false end.

(** Whether an observation carries an error. *)
Definition carriesError (o : Observation) : bool :=
  match Err o with Some _ => true | None => false end.

End Model.

Arguments panic {V A} msg.
Arguments emit {V} ev.
Arguments EvBeforeRun {V}.
Arguments EvReportErrors {V} errs.
Arguments make {V} n.
Arguments emptyResult {V}.
Arguments timedOut {V} bname.

(** ** The earlier, sequential-only [Run]

    The repository also holds an earlier version of [scientist.go].  It runs
    the behavior named by the constant [controlBehavior] and then every
    candidate, one after the other; it compares values without looking at
    the observations' errors; it has no hooks; an operation error names the
    behavior, and for "ignore" the index of the predicate that failed.
    Observations are values there, not pointers. *)

Definition controlBehavior : string := "control".
Definition candidateBehavior : string := "candidate".

Module Legacy.

Section Model.

Variable V : Type.

(** The zero value of [Observation], with which [make] fills a slice. *)
Definition zeroObservation : Observation V :=
  {| Name := ""; Value := None; Err := None |}.

(** [make([]Observation, n)]. *)
Definition make (n : Z) : M V (list (Observation V)) :=
  if (n <? 0)%Z then panic "makeslice: len out of range"
  else mret (replicate (Z.to_nat n) zeroObservation).

(** [s[i] = x]. *)
Definition store (s : list (Observation V)) (i : nat) (x : Observation V)
  : M V (list (Observation V)) :=
  if decide (i < length s) then mret (<[i:=x]> s)
  else panic "index out of range".

(** [type resultError struct]. *)
Record resultError : Type := {
  Operation : string;
  BehaviorName : string;
  Index : Z;
  Err : error
}.

(** [type Result struct]. *)
Record Result : Type := {
  Control : Observation V;
  Candidates : list (Observation V);
  Ignored : list (Observation V);
  Mismatched : list (Observation V);
  Errors : list resultError
}.

Definition setCandidates (r : Result) (l : list (Observation V)) : Result :=
  {| Control := Control r; Candidates := l; Ignored := Ignored r;
     Mismatched := Mismatched r; Errors := Errors r |}.
Definition setIgnored (r : Result) (l : list (Observation V)) : Result :=
  {| Control := Control r; Candidates := Candidates r; Ignored := l;
     Mismatched := Mismatched r; Errors := Errors r |}.
Definition setMismatched (r : Result) (l : list (Observation V)) : Result :=
  {| Control := Control r; Candidates := Candidates r; Ignored := Ignored r;
     Mismatched := l; Errors := Errors r |}.
Definition setErrors (r : Result) (l : list resultError) : Result :=
  {| Control := Control r; Candidates := Candidates r; Ignored := Ignored r;
     Mismatched := Mismatched r; Errors := l |}.

Definition mismatching (e : Experiment V) (control candidate : Observation V)
  : M V (bool * option error) :=
  _ ← emit (EvCompare (Value control) (Value candidate));
  let '(matching, err) := comparator e (Value control) (Value candidate) in
  mret (negb matching, err).

Fixpoint ignoringFrom (idx : nat)
    (preds : list (interface V -> interface V -> bool * option error))
    (control candidate : Observation V) : M V (bool * Z * option error) :=
  match preds with
  | [] => mret (false, (-1)%Z, None)
  | i :: preds' =>
      _ ← emit (EvIgnore idx (Value control) (Value candidate));
      let '(ok, err) := i (Value control) (Value candidate) in
      match err with
      | Some _ => mret (false, Z.of_nat idx, err)
      | None => if ok then mret (true, Z.of_nat idx, None)
                else ignoringFrom (S idx) preds' control candidate
      end
  end.

Definition ignoring (e : Experiment V) (control candidate : Observation V)
  : M V (bool * Z * option error) :=
  ignoringFrom 0 (ignores e) control candidate.

(** The classification of one candidate, inline in the loop of [Run]. *)
Definition classifyCandidate (e : Experiment V) (r : Result) (name : string)
    (c : Observation V) : M V Result :=
  '(mismatched, err) ← mismatching e (Control r) c;
  let '(mismatched, r) :=
    match err with
    | Some err =>
        (true, setErrors r (Errors r ++ [{| Operation := "compare"; BehaviorName := name;
                                            Index := (-1)%Z; Err := err |}]))
    | None => (mismatched, r)
    end in
  if negb mismatched then mret r
  else
    '(ignored, idx, err) ← ignoring e (Control r) c;
    let '(ignored, r) :=
      match err with
      | Some err =>
          (false, setErrors r (Errors r ++ [{| Operation := "ignore"; BehaviorName := name;
                                               Index := idx; Err := err |}]))
      | None => (ignored, r)
      end in
    if ignored then mret (setIgnored r (Ignored r ++ [c]))
    else mret (setMismatched r (Mismatched r ++ [c])).

(** Body of the loop over the behaviors. *)
Definition runBody (e : Experiment V) (st : Result * nat) (name : string)
  : M V (Result * nat) :=
  let '(r, i) := st in
  if String.eqb name controlBehavior then mret (r, i)
  else
    let c := observe e name (index (behaviors e) name) in
    cands ← store (Candidates r) i c;
    let r := setCandidates r cands in
    let i := i + 1 in
    r ← classifyCandidate e r name c;
    mret (r, i).

(** [Run]; the order of [range] over the behaviors map is [rangeOrder w]. *)
Definition Run (e : Experiment V) (w : Schedule) : M V Result :=
  let numCandidates := (Z.of_nat (size (behaviors e)) - 1)%Z in
  let control := observe e controlBehavior (index (behaviors e) controlBehavior) in
  cands ← make numCandidates;
  let r := {| Control := control; Candidates := cands;
              Ignored := []; Mismatched := []; Errors := [] |} in
  '(r, _) ← forEach (runBody e) (r, 0) (rangeOrder w);
  mret r.

(** What [classifyCandidate] does for one candidate, run on a [Result] that
    holds the control only: the callbacks it invokes, and what it appends. *)
Definition initial (ctl : Observation V) : Result :=
  {| Control := ctl; Candidates := []; Ignored := []; Mismatched := []; Errors := [] |}.

Definition classify (e : Experiment V) (ctl : Observation V) (name : string)
    (c : Observation V) : list (Event V) * Result :=
  match classifyCandidate e (initial ctl) name c with
  | (t, Ok delta) => (t, delta)
  | (t, Panic _) => (t, initial ctl)
  end.

(** The non-control behaviors in the order [Run] meets them. *)
Definition candidateNames (w : Schedule) : list string :=
  filter (fun n => n ≠ controlBehavior) (rangeOrder w).

(** The [Result] a run returns, and the callbacks it invokes. *)
Definition returned (e : Experiment V) (w : Schedule) : Result :=
  let ctl := observed e controlBehavior in
  {| Control := ctl;
     Candidates := observed e <$> candidateNames w;
     Ignored := candidateNames w ≫= (fun n => Ignored (classify e ctl n (observed e n)).2);
     Mismatched := candidateNames w ≫= (fun n => Mismatched (classify e ctl n (observed e n)).2);
     Errors := candidateNames w ≫= (fun n => Errors (classify e ctl n (observed e n)).2) |}.

Definition runTrace (e : Experiment V) (w : Schedule) : list (Event V) :=
  candidateNames w ≫= (fun n => (classify e (observed e controlBehavior) n (observed e n)).1).

End Model.

End Legacy.

Arguments Legacy.make {V} n.
Arguments Legacy.zeroObservation {V}.

(** ** Sample experiments *)

(** Modelled from the spec: registration ([Use], [Try], [Behavior]) is
    declared outside [scientist.go]; registering binds a behavior name to a
    function in the registry.  [registerAll] registers a sequence of
    behaviors, first to last. *)
Definition registerAll (V : Type) (l : list (string * option (behaviorFunc V)))
  : gmap string (option (behaviorFunc V)) :=
  foldl (fun m kv => <[kv.1 := kv.2]> m) ∅ l.

(** The claim that [Candidates] follows the order of registration. *)
Definition registrationOrdered (V : Type) (registration : list string) (name : string)
    (r : Result V) : Prop :=
  slotNames (Candidates r) = Some <$> filter (fun n => n ≠ name) registration.

(** A comparator in the manner of [reflect.DeepEqual]. *)
Definition deepEqual (a b : interface Z) : bool * option error :=
  (bool_decide (a = b), None).

Definition returning (v : Z) : option (behaviorFunc Z) := Some (fun _ => (Some v, None)).
Definition failing (msg : string) : option (behaviorFunc Z) :=
  Some (fun _ => (None, Some (errorString msg))).

(** Control [1], candidates [a] returning [2] and [b] returning [3],
    registered in this order. *)
Definition threeWayBehaviors : list (string * option (behaviorFunc Z)) :=
  [("control", returning 1); ("a", returning 2); ("b", returning 3)].

Definition threeWayRegistration : list string := threeWayBehaviors.*1.

(** Concurrent, with a timeout of 500ns. *)
Definition threeWay : Experiment Z :=
  {| ExpName := "three-way";
     behaviors := registerAll threeWayBehaviors;
     comparator := deepEqual; ignores := [];
     runConcurrently := true; timeout := Some 500%Z;
     before := fun _ => None; publisher := fun _ => None |}.

(** The same experiment run sequentially. *)
Definition threeWaySequential : Experiment Z :=
  {| ExpName := "three-way";
     behaviors := registerAll threeWayBehaviors;
     comparator := deepEqual; ignores := [];
     runConcurrently := false; timeout := None;
     before := fun _ => None; publisher := fun _ => None |}.


(** [range] yields [b] first; [b] completes before [a]. *)
Definition bFirst : Schedule :=
  {| rangeOrder := ["b"; "control"; "a"];
     arrival := [("control", false); ("b", false); ("a", false)] |}.

(** [a] does not complete before the deadline. *)
Definition aLate : Schedule :=
  {| rangeOrder := ["control"; "a"; "b"];
     arrival := [("b", false); ("control", false); ("a", true)] |}.

(** Sample observations. *)
Definition one : Observation Z := {| Name := "control"; Value := Some 1%Z; Err := None |}.
Definition two : Observation Z := {| Name := "candidate"; Value := Some 2%Z; Err := None |}.
Definition okError : Observation Z :=
  {| Name := "control"; Value := None; Err := Some (errorString "ok") |}.
Definition okCustom : Observation Z :=
  {| Name := "candidate"; Value := Some 1%Z; Err := Some (customError 7 "ok") |}.

(** Ignore predicates: one that declines, one that accepts, one that fails. *)
Definition declines (a b : interface Z) : bool * option error := (false, None).
Definition accepts (a b : interface Z) : bool * option error := (true, None).
Definition breaks (a b : interface Z) : bool * option error :=
  (true, Some (errorString "ignore failed")).

Definition withIgnores (ps : list (interface Z -> interface Z -> bool * option error))
  : Experiment Z :=
  {| ExpName := "ignore";
     behaviors := registerAll threeWayBehaviors;
     comparator := deepEqual; ignores := ps;
     runConcurrently := false; timeout := None;
     before := fun _ => None; publisher := fun _ => None |}.

(** An experiment whose comparator fails and whose ignore predicate fails. *)
Definition allFail : Experiment Z :=
  {| ExpName := "all-fail";
     behaviors := registerAll threeWayBehaviors;
     comparator := fun _ _ => (true, Some (errorString "compare failed"));
     ignores := [breaks];
     runConcurrently := false; timeout := None;
     before := fun _ => None; publisher := fun _ => None |}.

(** Every behavior fails with the text "ok"; the errors are different
    values, and so are the values returned with them. *)
Definition allFailAlike : Experiment Z :=
  {| ExpName := "alike";
     behaviors := registerAll
       [("control", failing "ok");
        ("a", Some (fun _ => (Some 1%Z, Some (customError 7 "ok"))))];
     comparator := deepEqual; ignores := [];
     runConcurrently := false; timeout := None;
     before := fun _ => None; publisher := fun _ => None |}.

(** The control returns [1]; the candidate [a] fails. *)
Definition candidateFails : Experiment Z :=
  {| ExpName := "candidate-fails";
     behaviors := registerAll [("control", returning 1); ("a", failing "boom")];
     comparator := fun _ _ => (true, None); ignores := [];
     runConcurrently := false; timeout := None;
     before := fun _ => None; publisher := fun _ => None |}.

(** A schedule for the two experiments above. *)
Definition controlThenA : Schedule :=
  {| rangeOrder := ["control"; "a"]; arrival := [("control", false); ("a", false)] |}.



Unset Implicit Arguments.

(** Evaluating the side conditions of a sample run. *)
Ltac registered := vm_compute; eexists; reflexivity.
Ltac scheduled := split; vm_compute; apply (bool_decide_unpack _); vm_compute; exact I.
Ltac member := apply (bool_decide_unpack _); vm_compute; exact I.

(** * Properties *)

Section Properties.

Variable V : Type.
Implicit Types (e : Experiment V) (r : Result V) (c d : Observation V).

(** ** The monad *)

Lemma bind_Ok (A B : Type) (t : list (Event V)) (a : A) (f : A -> M V B) :
  mbind f ((t, Ok a) : M V A) = (t ++ (f a).1, (f a).2).
Proof. unfold mbind, M_bind. by destruct (f a). Qed.

Lemma bind_ret (A B : Type) (a : A) (f : A -> M V B) :
  mbind f (mret a : M V A) = f a.
Proof. unfold mret, M_ret. rewrite bind_Ok. by destruct (f a). Qed.

Lemma bind_emit (B : Type) (ev : Event V) (f : unit -> M V B) :
  mbind f (emit ev) = (ev :: (f tt).1, (f tt).2).
Proof. unfold emit. by rewrite bind_Ok. Qed.

(** ** [matching] *)

Lemma matching_neither e c d :
  Err c = None -> Err d = None ->
  matching e (Some c) (Some d)
  = ([EvCompare (Value c) (Value d)], Ok (comparator e (Value c) (Value d))).
Proof.
  unfold matching. cbn [deref]. rewrite !bind_ret.
  intros -> ->. by rewrite bind_emit.
Qed.

Lemma matching_both e c d cerr derr :
  Err c = Some cerr -> Err d = Some derr ->
  matching e (Some c) (Some d) = ([], Ok (String.eqb (Error cerr) (Error derr), None)).
Proof.
  unfold matching. cbn [deref]. rewrite !bind_ret.
  by intros -> ->.
Qed.

Lemma matching_one e c d :
  (Err c = None /\ is_Some (Err d)) \/ (is_Some (Err c) /\ Err d = None) ->
  matching e (Some c) (Some d) = ([], Ok (false, None)).
Proof.
  unfold matching. cbn [deref]. rewrite !bind_ret.
  intros [[-> [x ->]]|[[x ->] ->]]; reflexivity.
Qed.

(** C2.  Classifying a pair of observations: when neither carries an error,
    [matching] invokes the comparator once on the two values and returns what
    it returns; when both carry errors, the verdict is true exactly when the
    two error texts are equal, and the comparator is not invoked; when
    exactly one carries an error, the verdict is false (and the comparator is
    not invoked either). *)
Theorem matching_cases e c d :
  (Err c = None -> Err d = None ->
   matching e (Some c) (Some d)
   = ([EvCompare (Value c) (Value d)], Ok (comparator e (Value c) (Value d))))
  /\ (forall cerr derr, Err c = Some cerr -> Err d = Some derr ->
      exists b, matching e (Some c) (Some d) = ([], Ok (b, None))
                /\ (b = true <-> Error cerr = Error derr))
  /\ ((Err c = None /\ is_Some (Err d)) \/ (is_Some (Err c) /\ Err d = None) ->
      matching e (Some c) (Some d) = ([], Ok (false, None))).
Proof.
  split; [|split].
  - apply matching_neither.
  - intros cerr derr Hc Hd. eexists; split; [by apply matching_both|].
    apply String.eqb_eq.
  - apply matching_one.
Qed.

Lemma matching_total e c d :
  exists t ok merr, matching e (Some c) (Some d) = (t, Ok (ok, merr)).
Proof.
  unfold matching. cbn [deref]. rewrite !bind_ret.
  destruct (Err c), (Err d); try (repeat eexists; reflexivity).
  rewrite bind_emit. cbn. destruct (comparator e (Value c) (Value d)).
  repeat eexists.
Qed.

(** ** [ignoring] *)

Lemma ignoringFrom_total preds idx c d :
  exists t ib ierr, ignoringFrom idx preds (Some c) (Some d) = (t, Ok (ib, ierr))
                    /\ (ib = true -> ierr = None).
Proof.
  revert idx. induction preds as [|p preds IH]; intros idx; cbn [ignoringFrom deref].
  - exists [], false, None. by split.
  - rewrite !bind_ret, bind_emit.
    destruct (p (Value c) (Value d)) as [ok [perr|]] eqn:Hp; cbn.
    + repeat eexists. done.
    + destruct ok; cbn.
      * repeat eexists.
      * destruct (IH (S idx)) as (t & ib & ierr & -> & Hib). cbn.
        repeat eexists. done.
Qed.

Lemma ignoring_total e c d :
  exists t ib ierr, ignoring e (Some c) (Some d) = (t, Ok (ib, ierr))
                    /\ (ib = true -> ierr = None).
Proof. apply ignoringFrom_total. Qed.

(** The predicates in front of the first one that answers true or fails are
    invoked in order; the ones behind it are not invoked. *)
Lemma ignoringFrom_first pre p post idx c d :
  Forall (fun q => q (Value c) (Value d) = (false, None)) pre ->
  ignoringFrom idx (pre ++ p :: post) (Some c) (Some d)
  = (map (fun k => EvIgnore k (Value c) (Value d)) (seq idx (S (length pre))),
     match p (Value c) (Value d) with
     | (_, Some perr) => Ok (false, Some perr)
     | (true, None) => Ok (true, None)
     | (false, None) => (ignoringFrom (S (idx + length pre)) post (Some c) (Some d)).2
     end)
    \/ (p (Value c) (Value d) = (false, None)).
Proof.
  intros Hpre. revert idx. induction Hpre as [|q pre Hq Hpre IH]; intros idx.
  - cbn [app ignoringFrom deref length seq map]. rewrite !bind_ret, bind_emit.
    destruct (p (Value c) (Value d)) as [[] [perr|]]; cbn; auto.
  - cbn [app ignoringFrom deref length]. rewrite !bind_ret, bind_emit, Hq.
    destruct (IH (S idx)) as [->|Hp]; [|by right]. left.
    cbn [fst snd]. rewrite <- Nat.add_succ_comm. reflexivity.
Qed.

(** ** [processObservation] *)

Lemma processObservation_unfold e r c d tm ok merr ti ib ierr :
  matching e (Some c) (Some d) = (tm, Ok (ok, merr)) ->
  ignoring e (Some c) (Some d) = (ti, Ok (ib, ierr)) ->
  processObservation e r (Some c) (Some d)
  = if match merr with Some _ => false | None => ok end
    then (tm, Ok r)
    else (tm ++ ti,
          Ok {| Control := Control r; Observations := Observations r;
                Candidates := Candidates r;
                Ignored := Ignored r ++
                  (if match ierr with Some _ => false | None => ib end
                   then [Some d] else []);
                Mismatched := Mismatched r ++
                  (if match ierr with Some _ => false | None => ib end
                   then [] else [Some d]);
                Errors := Errors r ++ compareErrors e merr ++ ignoreErrors e ierr |}).
Proof.
  intros Hm Hi. unfold processObservation. rewrite Hm, bind_Ok. cbn -[ignoring].
  destruct r as [rc ro rca ri rm re].
  destruct merr as [x|]; [|destruct ok]; cbn -[ignoring].
  2: { by rewrite app_nil_r. }
  all: rewrite Hi; cbn; destruct ierr as [y|]; [|destruct ib]; cbn;
    rewrite ?app_nil_r, <- ?app_assoc; reflexivity.
Qed.

(** C5.  For a candidate that failed matching, with the ignore predicates
    [pre ++ p :: post] where every predicate of [pre] answers false without
    error: the predicates of [pre] and then [p] are invoked, in this order,
    and no predicate of [post] is.  If [p] answers true, the candidate is
    appended to [Ignored].  If [p] returns an error, an operation error
    "ignore" is recorded and the candidate is appended to [Mismatched], not
    to [Ignored]. *)
Theorem ignoring_first_decides e r c d pre p post tm ok merr :
  ignores e = pre ++ p :: post ->
  Forall (fun q => q (Value c) (Value d) = (false, None)) pre ->
  matching e (Some c) (Some d) = (tm, Ok (ok, merr)) ->
  match merr with Some _ => false | None => ok end = false ->
  let evs := map (fun k => EvIgnore k (Value c) (Value d)) (seq 0 (S (length pre))) in
  (p (Value c) (Value d) = (true, None) ->
   ignoring e (Some c) (Some d) = (evs, Ok (true, None))
   /\ exists r', processObservation e r (Some c) (Some d) = (tm ++ evs, Ok r')
        /\ Ignored r' = Ignored r ++ [Some d]
        /\ Mismatched r' = Mismatched r
        /\ Errors r' = Errors r ++ compareErrors e merr)
  /\ (forall b perr, p (Value c) (Value d) = (b, Some perr) ->
      ignoring e (Some c) (Some d) = (evs, Ok (false, Some perr))
      /\ exists r', processObservation e r (Some c) (Some d) = (tm ++ evs, Ok r')
           /\ Ignored r' = Ignored r
           /\ Mismatched r' = Mismatched r ++ [Some d]
           /\ Errors r' = Errors r ++ compareErrors e merr ++ [resultErr e "ignore" perr]).
Proof.
  intros Hig Hpre Hm Hnot evs.
  pose proof (ignoringFrom_first pre p post 0 c d Hpre) as Hfirst.
  split.
  - intros Hp. rewrite Hp in Hfirst. destruct Hfirst as [Hfirst|]; [|done].
    assert (Hi : ignoring e (Some c) (Some d) = (evs, Ok (true, None))).
    { unfold ignoring. by rewrite Hig. }
    split; [exact Hi|].
    rewrite (processObservation_unfold e r c d _ _ _ _ _ _ Hm Hi), Hnot.
    eexists; split; [reflexivity|]. cbn. by rewrite !app_nil_r.
  - intros b perr Hp. rewrite Hp in Hfirst. destruct Hfirst as [Hfirst|]; [|done].
    assert (Hi : ignoring e (Some c) (Some d) = (evs, Ok (false, Some perr))).
    { unfold ignoring. rewrite Hig, Hfirst. by destruct b. }
    split; [exact Hi|].
    rewrite (processObservation_unfold e r c d _ _ _ _ _ _ Hm Hi), Hnot.
    eexists; split; [reflexivity|]. cbn. by rewrite !app_nil_r.
Qed.

(** C6.  When the comparator returns an error for a candidate, the candidate
    is not treated as matching: the operation error "compare" is recorded
    and the candidate is appended to [Ignored] or to [Mismatched], whatever
    boolean the comparator returned.  If an ignore predicate then returns an
    error as well, [Errors] gains the "compare" error followed by the
    "ignore" error and the candidate is appended to [Mismatched]. *)
Theorem comparator_error_accumulates e r c d b cerr :
  Err c = None -> Err d = None ->
  comparator e (Value c) (Value d) = (b, Some cerr) ->
  exists t r', processObservation e r (Some c) (Some d) = (t, Ok r')
    /\ (exists rest, Errors r' = Errors r ++ resultErr e "compare" cerr :: rest)
    /\ ((Ignored r' = Ignored r ++ [Some d] /\ Mismatched r' = Mismatched r)
        \/ (Ignored r' = Ignored r /\ Mismatched r' = Mismatched r ++ [Some d]))
    /\ (forall ti ib ierr,
          ignoring e (Some c) (Some d) = (ti, Ok (ib, Some ierr)) ->
          Errors r' = Errors r ++ [resultErr e "compare" cerr; resultErr e "ignore" ierr]
          /\ Mismatched r' = Mismatched r ++ [Some d]
          /\ Ignored r' = Ignored r).
Proof.
  intros Hc Hd Hcmp.
  pose proof (matching_neither e c d Hc Hd) as Hm. rewrite Hcmp in Hm.
  destruct (ignoring_total e c d) as (ti & ib & ierr & Hi & Hib).
  rewrite (processObservation_unfold e r c d _ _ _ _ _ _ Hm Hi).
  eexists _, _; split; [reflexivity|]. cbn [Errors Ignored Mismatched compareErrors].
  split; [by eexists|]. split.
  - destruct ierr; [|destruct ib]; rewrite ?app_nil_r; auto.
  - intros ti' ib' ierr' Hi'. rewrite Hi in Hi'. injection Hi' as _ _ ->.
    cbn. by rewrite app_nil_r.
Qed.

(** What [processObservation] appends does not depend on the [Result] it
    appends to. *)
Lemma processObservation_merge e r c d :
  processObservation e r (Some c) (Some d)
  = ((classify e c d).1, Ok (merge r (classify e c d).2)).
Proof.
  destruct (matching_total e c d) as (tm & ok & merr & Hm).
  destruct (ignoring_total e c d) as (ti & ib & ierr & Hi & _).
  unfold classify.
  rewrite !(processObservation_unfold e _ c d _ _ _ _ _ _ Hm Hi).
  destruct r as [rc ro rca ri rm re].
  destruct (match merr with Some _ => false | None => ok end) eqn:Hok; cbn.
  - unfold merge. cbn. by rewrite !app_nil_r.
  - reflexivity.
Qed.

(** The three ways a candidate is classified. *)
Lemma classify_shape e c d :
  (matching e (Some c) (Some d) = ((classify e c d).1, Ok (true, None))
   /\ Ignored (classify e c d).2 = [] /\ Mismatched (classify e c d).2 = []
   /\ Errors (classify e c d).2 = [])
  \/ (Ignored (classify e c d).2 = [Some d] /\ Mismatched (classify e c d).2 = [])
  \/ (Ignored (classify e c d).2 = [] /\ Mismatched (classify e c d).2 = [Some d]).
Proof.
  destruct (matching_total e c d) as (tm & ok & merr & Hm).
  destruct (ignoring_total e c d) as (ti & ib & ierr & Hi & _).
  unfold classify.
  rewrite !(processObservation_unfold e _ c d _ _ _ _ _ _ Hm Hi).
  destruct merr as [x|]; [|destruct ok]; cbn -[matching].
  2: { left. by rewrite Hm. }
  all: right; destruct ierr as [y|]; [|destruct ib]; cbn; auto.
Qed.

Lemma classify_operations e c d x :
  x ∈ Errors (classify e c d).2 ->
  ExperimentName x = ExpName e /\ (Operation x = "compare" \/ Operation x = "ignore").
Proof.
  destruct (matching_total e c d) as (tm & ok & merr & Hm).
  destruct (ignoring_total e c d) as (ti & ib & ierr & Hi & _).
  unfold classify.
  rewrite !(processObservation_unfold e _ c d _ _ _ _ _ _ Hm Hi).
  destruct (match merr with Some _ => false | None => ok end); cbn.
  - by intros ?%elem_of_nil.
  - rewrite !elem_of_app. unfold compareErrors, ignoreErrors.
    destruct merr, ierr; cbn; intros [H|H];
      try (by apply elem_of_nil in H);
      apply list_elem_of_singleton in H; subst x; cbn; auto.
Qed.

Lemma ignoringFrom_events preds idx c d ev :
  ev ∈ (ignoringFrom idx preds (Some c) (Some d)).1 ->
  exists k, ev = EvIgnore k (Value c) (Value d).
Proof.
  revert idx. induction preds as [|p preds IH]; intros idx; cbn [ignoringFrom deref].
  - by intros ?%elem_of_nil.
  - rewrite !bind_ret, bind_emit. cbn [fst]. rewrite elem_of_cons.
    intros [->|Hin]; [by eexists|].
    destruct (p (Value c) (Value d)) as [ok [perr|]]; cbn in Hin.
    + by apply elem_of_nil in Hin.
    + destruct ok; cbn in Hin; [by apply elem_of_nil in Hin|]. by apply (IH (S idx)).
Qed.

(** Classification invokes the comparator and the ignore predicates only,
    on the values of the control and of the candidate. *)
Lemma classify_events e c d ev :
  ev ∈ (classify e c d).1 ->
  ev = EvCompare (Value c) (Value d) \/ exists k, ev = EvIgnore k (Value c) (Value d).
Proof.
  destruct (matching_total e c d) as (tm & ok & merr & Hm).
  destruct (ignoring_total e c d) as (ti & ib & ierr & Hi & _).
  unfold classify.
  rewrite !(processObservation_unfold e _ c d _ _ _ _ _ _ Hm Hi).
  assert (Htm : forall ev, ev ∈ tm -> ev = EvCompare (Value c) (Value d)).
  { revert Hm. unfold matching. cbn [deref]. rewrite !bind_ret.
    destruct (Err c), (Err d); try (intros [= <- _]; by intros ? ?%elem_of_nil).
    rewrite bind_emit. cbn. intros [= <- _] ev'. rewrite list_elem_of_singleton. done. }
  assert (Hti : forall ev, ev ∈ ti -> exists k, ev = EvIgnore k (Value c) (Value d)).
  { intros ev' Hev. apply (ignoringFrom_events (ignores e) 0 c d).
    unfold ignoring in Hi. by rewrite Hi. }
  destruct (match merr with Some _ => false | None => ok end); cbn.
  - intros ?%Htm. auto.
  - rewrite elem_of_app. intros [?%Htm|?%Hti]; auto.
Qed.

(** ** The loops of [Run] *)

Lemma merge_assoc r (d1 d2 : Result V) :
  merge (merge r d1) d2
  = merge r {| Control := None; Observations := []; Candidates := [];
               Ignored := Ignored d1 ++ Ignored d2;
               Mismatched := Mismatched d1 ++ Mismatched d2;
               Errors := Errors d1 ++ Errors d2 |}.
Proof. unfold merge. cbn. by rewrite !app_assoc. Qed.

Lemma classifyLoop e c ds r :
  Control r = Some c ->
  forEach (runClassifyBody e) r (Some <$> ds)
  = ((classifyAll e c ds).1, Ok (merge r (classifyAll e c ds).2)).
Proof.
  revert r. induction ds as [|d ds IH]; intros r Hc.
  - cbn. destruct r. unfold merge. cbn. by rewrite !app_nil_r.
  - cbn [fmap list_fmap forEach runClassifyBody]. rewrite Hc, processObservation_merge, bind_Ok.
    rewrite IH by done. cbn [fst snd]. rewrite merge_assoc. reflexivity.
Qed.

Lemma store_lt (s : list (option (Observation V))) i x :
  i < length s -> store s i x = ([], Ok (<[i:=x]> s)).
Proof. intros Hi. unfold store. by rewrite decide_True. Qed.

Lemma store_next (pre : list (option (Observation V))) k x :
  store (pre ++ replicate (S k) None) (length pre) x
  = ([], Ok ((pre ++ [x]) ++ replicate k None)).
Proof.
  rewrite store_lt by (rewrite length_app, length_replicate; lia).
  rewrite insert_app_r_alt, Nat.sub_diag by lia. cbn. by rewrite <- app_assoc.
Qed.

Lemma store_next_shifted (pre : list (option (Observation V))) o0 k x :
  store (o0 :: pre ++ replicate (S k) None) (length pre + 1) x
  = ([], Ok (o0 :: (pre ++ [x]) ++ replicate k None)).
Proof.
  rewrite store_lt by (rewrite length_cons, length_app, length_replicate; lia).
  rewrite Nat.add_1_r.
  change (<[S (length pre):=x]> (o0 :: pre ++ replicate (S k) None))
    with (o0 :: <[length pre:=x]> (pre ++ replicate (S k) None)).
  rewrite insert_app_r_alt, Nat.sub_diag by lia. cbn. by rewrite <- app_assoc.
Qed.

(** The sequential loop stores the candidates in the order [range] yields
    them and classifies each one against the control. *)
Lemma sequentialLoop e name c l :
  forall r pre o0 k,
    Control r = Some c ->
    Candidates r = pre ++ replicate k None ->
    Observations r = o0 :: pre ++ replicate k None ->
    length (filter (fun n => n ≠ name) l) <= k ->
    forEach (runSequentialBody e name) (r, length pre) l
    = let new := observed e <$> filter (fun n => n ≠ name) l in
      let slots := pre ++ (Some <$> new) ++ replicate (k - length new) None in
      ((classifyAll e c new).1,
       Ok ({| Control := Some c; Observations := o0 :: slots; Candidates := slots;
              Ignored := Ignored r ++ Ignored (classifyAll e c new).2;
              Mismatched := Mismatched r ++ Mismatched (classifyAll e c new).2;
              Errors := Errors r ++ Errors (classifyAll e c new).2 |},
           length pre + length new)).
Proof.
  induction l as [|bname l IH]; intros r pre o0 k Hc Hcands Hobs Hk.
  - destruct r as [rc ro rca ri rm re]. cbn in *. subst.
    rewrite Nat.sub_0_r, !app_nil_r, Nat.add_0_r. reflexivity.
  - cbn [forEach runSequentialBody].
    destruct (String.eqb_spec bname name) as [->|Hne].
    + rewrite bind_ret. rewrite filter_cons_False in * by (intros ?; done).
      by apply IH.
    + rewrite filter_cons_True in * by done.
      cbn [length] in Hk. destruct k as [|k]; [lia|].
      destruct r as [rc ro rca ri rm re].
      cbn [Control Candidates Observations Ignored Mismatched Errors] in *. subst rc ro rca.
      rewrite store_next, bind_Ok. cbn [fst snd app].
      cbn [setCandidates Observations]. rewrite store_next_shifted, bind_Ok.
      cbn [fst snd app setObservations setCandidates Control Candidates Observations
           Ignored Mismatched Errors].
      rewrite processObservation_merge, bind_Ok. cbn [fst snd mret M_ret].
      rewrite bind_Ok.
      replace (length pre + 1) with (length (pre ++ [Some (observed e bname)]))
        by (rewrite length_app; reflexivity).
      rewrite (IH _ _ o0 k) by (cbn; done || lia).
      unfold merge, setObservations, setCandidates, classifyAll, observed.
      cbn [fst snd Ignored Mismatched Errors Control Candidates Observations
           fmap list_fmap mbind list_bind length app Nat.sub].
      rewrite <- ?app_assoc, ?app_nil_r, ?length_app. cbn [app length].
      rewrite <- ?Nat.add_assoc. cbn [Nat.add]. reflexivity.
Qed.

Lemma goroutine_delivered e (a : string * bool) :
  goroutine e a.1 (index (behaviors e) a.1) a.2
  = {| name := a.1; obs := Some (delivered e a);
       err := if took e a.2 then Some deadlineExceededError else None |}.
Proof.
  unfold goroutine, delivered, took, observed, timedOut.
  destruct (createContext e), a.2; reflexivity.
Qed.

(** The receiving loop stores the candidates in the order their results
    arrive, and records a "timeout" error for every expired context. *)
Lemma collectLoop e name ms :
  forall r pre k,
    Candidates r = pre ++ replicate k None ->
    Observations r = Control r :: pre ++ replicate k None ->
    length (filter (fun a : string * bool => a.1 ≠ name) ms) <= k ->
    forEach (runCollectBody e name) (r, length pre)
            ((fun a : string * bool => goroutine e a.1 (index (behaviors e) a.1) a.2) <$> ms)
    = let new := delivered e <$> filter (fun a : string * bool => a.1 ≠ name) ms in
      let slots := pre ++ (Some <$> new) ++ replicate (k - length new) None in
      let ctl := lastControl e name (Control r) ms in
      ([], Ok ({| Control := ctl; Observations := ctl :: slots; Candidates := slots;
                  Ignored := Ignored r; Mismatched := Mismatched r;
                  Errors := Errors r ++ arrivalErrors e ms |},
               length pre + length new)).
Proof.
  induction ms as [|a ms IH]; intros r pre k Hcands Hobs Hk.
  - destruct r as [rc ro rca ri rm re]. cbn in *. subst.
    rewrite Nat.sub_0_r, !app_nil_r, Nat.add_0_r. reflexivity.
  - cbn [fmap list_fmap forEach]. rewrite goroutine_delivered.
    destruct r as [rc ro rca ri rm re].
    cbn [Control Candidates Observations Ignored Mismatched Errors] in *. subst ro rca.
    unfold runCollectBody.
    destruct (String.eqb_spec a.1 name) as [Heq|Hne].
    + rewrite filter_cons_False in * by (intros ?; done).
      destruct (took e a.2) eqn:Htook;
        cbn [setErrors setControl Control Candidates Observations Ignored Mismatched Errors];
        rewrite store_lt by (cbn; lia); rewrite bind_Ok;
        cbn [fst snd mret M_ret setObservations Control Candidates Observations
             Ignored Mismatched Errors insert list_insert app];
        rewrite bind_Ok;
        rewrite (IH _ pre k) by done;
        unfold setObservations, setControl, setErrors, setCandidates;
        cbn [Control Candidates Observations Ignored Mismatched Errors fst snd app
             lastControl foldl arrivalErrors mbind list_bind];
        rewrite decide_True, Htook by done; cbn [app];
        rewrite <- ?app_assoc, ?app_nil_r; reflexivity.
    + rewrite filter_cons_True in * by done.
      cbn [length] in Hk. destruct k as [|k]; [lia|].
      destruct (took e a.2) eqn:Htook;
        cbn [setErrors setControl Control Candidates Observations Ignored Mismatched Errors];
        rewrite store_next, bind_Ok;
        cbn [fst snd app setCandidates setErrors Control Candidates Observations
             Ignored Mismatched Errors];
        rewrite store_next_shifted, bind_Ok;
        cbn [fst snd mret M_ret app setObservations Control Candidates Observations
             Ignored Mismatched Errors];
        rewrite bind_Ok;
        replace (length pre + 1) with (length (pre ++ [Some (delivered e a)]))
          by (rewrite length_app; reflexivity);
        rewrite (IH _ _ k) by (cbn; done || lia);
        unfold setObservations, setControl, setErrors, setCandidates;
        cbn [Control Candidates Observations Ignored Mismatched Errors fst snd app
             fmap list_fmap length Nat.sub lastControl foldl arrivalErrors mbind list_bind];
        rewrite decide_False, Htook by done;
        rewrite <- ?app_assoc, ?app_nil_r, ?length_app; cbn [app length];
        rewrite <- ?Nat.add_assoc; cbn [Nat.add]; reflexivity.
Qed.

(** ** Schedules *)

Lemma filter_other_length (l : list string) (x : string) :
  NoDup l -> x ∈ l -> S (length (filter (fun n => n ≠ x) l)) = length l.
Proof.
  induction 1 as [|y l Hy Hnd IH]; [by intros ?%elem_of_nil|].
  rewrite elem_of_cons. intros Hx. destruct (decide (y = x)) as [->|Hne].
  - rewrite filter_cons_False by (intros ?; done). cbn. f_equal.
    clear IH Hx. induction l as [|z l IHl]; [done|].
    apply not_elem_of_cons in Hy as [Hz Hy]. apply NoDup_cons in Hnd as [_ Hnd].
    rewrite filter_cons_True by done. cbn. f_equal. by apply IHl.
  - rewrite filter_cons_True by done. cbn. f_equal. apply IH.
    destruct Hx as [->|]; done.
Qed.

Lemma filter_arrival_names (name : string) (ms : list (string * bool)) :
  (filter (fun a : string * bool => a.1 ≠ name) ms).*1 = filter (fun n => n ≠ name) (ms.*1).
Proof.
  induction ms as [|a ms IH]; [done|]. cbn [fmap list_fmap].
  destruct (decide (a.1 = name)) as [Heq|Hne].
  - rewrite !filter_cons_False by (intros ?; done). exact IH.
  - rewrite !filter_cons_True by done. cbn. by rewrite <- IH.
Qed.

Lemma arrival_flag_unique (ms : list (string * bool)) n b1 b2 :
  NoDup (ms.*1) -> (n, b1) ∈ ms -> (n, b2) ∈ ms -> b1 = b2.
Proof.
  induction ms as [|a ms IH]; [by intros _ ?%elem_of_nil|].
  cbn [fmap list_fmap]. rewrite NoDup_cons, !elem_of_cons. intros [Hnot Hnd] H1 H2.
  assert (Hin : forall b, (n, b) ∈ ms -> n ∈ ms.*1).
  { intros b Hb. apply list_elem_of_fmap. by exists (n, b). }
  destruct H1 as [<-|H1], H2 as [H2|H2].
  - by injection H2.
  - cbn in Hnot. by apply Hin in H2.
  - subst a. cbn in Hnot. by apply Hin in H1.
  - by apply IH.
Qed.

Lemma keys_NoDup e : NoDup (keys e).
Proof. apply NoDup_fst_map_to_list. Qed.

Lemma keys_length e : length (keys e) = size (behaviors e).
Proof. unfold keys. by rewrite length_fmap, length_map_to_list. Qed.

Lemma keys_elem_of e n : n ∈ keys e <-> is_Some (behaviors e !! n).
Proof.
  unfold keys. rewrite list_elem_of_fmap. split.
  - intros [[k b] [-> Hin]]. apply elem_of_map_to_list in Hin. by eexists.
  - intros [b Hb]. exists (n, b). split; [done|]. by apply elem_of_map_to_list.
Qed.

(** With every key visited once, all but one of the visits are candidates. *)
Lemma candidates_count e name (l : list string) :
  is_Some (behaviors e !! name) -> l ≡ₚ keys e ->
  S (length (filter (fun n => n ≠ name) l)) = size (behaviors e).
Proof.
  intros Hreg Hperm. rewrite <- keys_length, <- Hperm.
  apply filter_other_length.
  - rewrite Hperm. apply keys_NoDup.
  - rewrite Hperm. by apply keys_elem_of.
Qed.

Lemma lastControl_other e name p0 (ms : list (string * bool)) :
  name ∉ ms.*1 -> lastControl e name p0 ms = p0.
Proof.
  revert p0. induction ms as [|a ms IH]; intros p0; [done|].
  cbn [fmap list_fmap]. rewrite not_elem_of_cons. intros [Hne Hnot].
  unfold lastControl in *. cbn [foldl]. rewrite decide_False by done. by apply IH.
Qed.

Lemma lastControl_unique e name p0 (ms : list (string * bool)) b :
  NoDup (ms.*1) -> (name, b) ∈ ms ->
  lastControl e name p0 ms = Some (delivered e (name, b)).
Proof.
  revert p0. induction ms as [|a ms IH]; intros p0; [by intros _ ?%elem_of_nil|].
  cbn [fmap list_fmap]. rewrite NoDup_cons, elem_of_cons. intros [Hnot Hnd] Hin.
  change (lastControl e name p0 (a :: ms))
    with (lastControl e name
            (if decide (a.1 = name) then Some (delivered e a) else p0) ms).
  destruct Hin as [<-|Hin].
  - cbn in *. rewrite decide_True by done. by apply lastControl_other.
  - by apply IH.
Qed.

Lemma took_expired e w (a : string * bool) :
  NoDup ((arrival w).*1) -> a ∈ arrival w -> took e a.2 = expired e w a.1.
Proof.
  intros Hnd Hin. unfold took, expired. destruct (createContext e); [|done].
  destruct a as [n b]. cbn. destruct b.
  - by rewrite bool_decide_eq_true_2.
  - rewrite bool_decide_eq_false_2; [done|].
    intros Hin'. by pose proof (arrival_flag_unique _ _ _ _ Hnd Hin Hin').
Qed.

Lemma delivered_slot e w (a : string * bool) :
  runConcurrently e = true -> NoDup ((arrival w).*1) -> a ∈ arrival w ->
  delivered e a = slot e w a.1.
Proof.
  intros Hconc Hnd Hin. unfold delivered, slot.
  by rewrite Hconc, (took_expired e w a Hnd Hin).
Qed.

Lemma delivered_candidates e name w :
  runConcurrently e = true -> NoDup ((arrival w).*1) ->
  delivered e <$> filter (fun a : string * bool => a.1 ≠ name) (arrival w)
  = slot e w <$> candidateNames e name w.
Proof.
  intros Hconc Hnd. unfold candidateNames. rewrite Hconc, <- filter_arrival_names.
  rewrite <- list_fmap_compose. apply list_fmap_ext.
  intros i a Hi. cbn. apply delivered_slot; [done..|].
  apply list_elem_of_lookup_2 in Hi. by apply list_elem_of_filter in Hi as [_ ?].
Qed.

(** ** [Run] in closed form *)

Lemma bind_eq (A B : Type) (m : M V A) (f : A -> M V B) t a t' o :
  m = (t, Ok a) -> f a = (t', o) -> mbind f m = (t ++ t', o).
Proof. intros -> Hf. by rewrite bind_Ok, Hf. Qed.

Lemma beforeRun_eq e : beforeRun e = ([EvBeforeRun], Ok (before e tt)).
Proof. reflexivity. Qed.

Lemma publish_eq e r : publish e r = ([EvPublish r], Ok (publisher e r)).
Proof. reflexivity. Qed.

Lemma make_nat n : make (V:=V) (Z.of_nat n) = ([], Ok (replicate n None)).
Proof.
  unfold make. destruct (Z.ltb_spec (Z.of_nat n) 0); [lia|]. by rewrite Nat2Z.id.
Qed.

Lemma make_pred n : make (V:=V) (Z.of_nat (S n) - 1) = ([], Ok (replicate n None)).
Proof. replace (Z.of_nat (S n) - 1)%Z with (Z.of_nat n) by lia. apply make_nat. Qed.

Lemma report_eq e (errs : list ResultError) :
  (if decide (0 < length errs) then errorReporter e errs else mret tt)
  = (match errs with [] => [] | _ :: _ => [EvReportErrors errs] end, Ok tt).
Proof. destruct errs; case_decide; cbn in *; (reflexivity || lia). Qed.

Lemma Run_closed e name w :
  is_Some (behaviors e !! name) -> wfSchedule e w ->
  Run e name w = (runTrace e name w, Ok (returned e name w)).
Proof.
  intros Hreg [Hrange Harr].
  pose proof (candidates_count e name _ Hreg Hrange) as Hnr.
  pose proof (candidates_count e name _ Hreg Harr) as Hna.
  assert (Hnd : NoDup ((arrival w).*1)) by (rewrite Harr; apply keys_NoDup).
  assert (Hb : exists b, (name, b) ∈ arrival w).
  { apply keys_elem_of in Hreg. rewrite <- Harr in Hreg.
    apply list_elem_of_fmap in Hreg as [[n b] [-> Hin]]. by exists b. }
  destruct Hb as [b Hb].
  assert (Hr0 : match before e tt with
                | Some berr => setErrors (emptyResult (V:=V))
                                 (Errors (emptyResult (V:=V)) ++ [resultErr e "before_run" berr])
                | None => emptyResult (V:=V)
                end
                = {| Control := None; Observations := []; Candidates := [];
                     Ignored := []; Mismatched := []; Errors := beforeErrors e |}).
  { unfold beforeErrors. by destruct (before e tt). }
  assert (Hslot : runConcurrently e = true -> delivered e (name, b) = slot e w name).
  { intros Hconc. by apply (delivered_slot e w (name, b)). }
  unfold Run. fold (emptyResult (V:=V)).
  destruct (runConcurrently e) eqn:Hconc; cbn [negb].
  - etrans.
    { eapply bind_eq; [apply beforeRun_eq|]. cbn zeta. rewrite Hr0, <- Hna.
      eapply bind_eq; [apply make_pred|].
      eapply bind_eq; [apply make_nat|].
      eapply bind_eq.
      + eapply bind_eq.
        * apply (collectLoop e name (arrival w) _ []
                   (length (filter (fun n => n ≠ name) (arrival w).*1)));
            [reflexivity..|].
          rewrite <- filter_arrival_names, length_fmap. lia.
        * cbn zeta. cbn [Control Candidates Observations Ignored Mismatched Errors
                          setObservations setCandidates app].
          rewrite (lastControl_unique e name _ _ b Hnd Hb).
          rewrite <- filter_arrival_names, !length_fmap, Nat.sub_diag.
          cbn [replicate]. rewrite app_nil_r.
          apply classifyLoop. reflexivity.
      + eapply bind_eq; [apply publish_eq|].
        eapply bind_eq; [apply report_eq|reflexivity]. }
    rewrite (delivered_candidates e name w Hconc Hnd), (Hslot eq_refl).
    unfold runTrace, returned, published, timeoutErrors. rewrite Hconc.
    cbn [app]. rewrite !app_nil_r. reflexivity.
  - etrans.
    { eapply bind_eq; [apply beforeRun_eq|]. cbn zeta. rewrite Hr0, <- Hnr.
      eapply bind_eq; [apply make_pred|].
      eapply bind_eq; [apply make_nat|].
      eapply bind_eq.
      + cbn zeta. cbn [Control Candidates Observations Ignored Mismatched Errors
                        setObservations setCandidates setControl].
        eapply bind_eq; [apply store_lt; cbn; lia|].
        cbn [replicate insert list_insert].
        eapply bind_eq; [apply (sequentialLoop e name (observed e name) (rangeOrder w) _ []
                 (Some (observed e name))
                 (length (filter (fun n => n ≠ name) (rangeOrder w))));
          [reflexivity..|lia]|reflexivity].
      + eapply bind_eq; [apply publish_eq|].
        eapply bind_eq; [apply report_eq|reflexivity]. }
    unfold runTrace, returned, published, timeoutErrors, slot, candidateNames.
    rewrite Hconc. cbn [andb].
    rewrite !length_fmap, Nat.sub_diag.
    cbn [app replicate]. rewrite !app_nil_r.
    reflexivity.
Qed.

(** ** The control must be registered *)

Lemma bind_Panic (A B : Type) (m : M V A) (f : A -> M V B) t msg :
  m = (t, Panic msg) -> mbind f m = (t, Panic msg).
Proof. by intros ->. Qed.

Lemma store_full (pre : list (option (Observation V))) x :
  exists msg, store (pre ++ replicate 0 None) (length pre) x = ([], Panic msg).
Proof.
  unfold store. rewrite decide_False; [by eexists|].
  cbn. rewrite app_nil_r. lia.
Qed.

(** With more candidates than slots, the sequential loop runs out of
    [Candidates]. *)
Lemma sequentialLoop_overflow e name c l :
  forall r pre o0 k,
    Control r = Some c ->
    Candidates r = pre ++ replicate k None ->
    Observations r = o0 :: pre ++ replicate k None ->
    name ∉ l -> k < length l ->
    exists t msg, forEach (runSequentialBody e name) (r, length pre) l = (t, Panic msg).
Proof.
  induction l as [|bname l IH]; intros r pre o0 k Hc Hcands Hobs Hnot Hk;
    [cbn in Hk; lia|].
  apply not_elem_of_cons in Hnot as [Hne Hnot].
  cbn [forEach runSequentialBody].
  destruct (String.eqb_spec bname name) as [->|_]; [done|].
  destruct k as [|k].
  - rewrite Hcands. destruct (store_full pre (Some (observe e bname (index (behaviors e) bname))))
      as [msg Hs].
    eexists _, _. apply bind_Panic. apply bind_Panic. exact Hs.
  - destruct r as [rc ro rca ri rm re].
    cbn [Control Candidates Observations Ignored Mismatched Errors] in *. subst rc ro rca.
    rewrite store_next, bind_Ok. cbn [fst snd app].
    cbn [setCandidates Observations]. rewrite store_next_shifted, bind_Ok.
    cbn [fst snd app setObservations setCandidates Control Candidates Observations
         Ignored Mismatched Errors].
    rewrite processObservation_merge, bind_Ok. cbn [fst snd mret M_ret].
    rewrite bind_Ok.
    replace (length pre + 1) with (length (pre ++ [Some (observed e bname)]))
      by (rewrite length_app; reflexivity).
    match goal with
    | |- context [forEach _ (?r', _) l] =>
        edestruct (IH r' (pre ++ [Some (observed e bname)]) o0 k)
          as (t & msg & Hloop); [reflexivity..|done|cbn in Hk; lia|]
    end.
    unfold observed in *. rewrite Hloop. by eexists _, _.
Qed.

(** So does the receiving loop. *)
Lemma collectLoop_overflow e name ms :
  forall r pre k,
    Candidates r = pre ++ replicate k None ->
    Observations r = Control r :: pre ++ replicate k None ->
    name ∉ ms.*1 -> k < length ms ->
    exists t msg,
      forEach (runCollectBody e name) (r, length pre)
              ((fun a : string * bool => goroutine e a.1 (index (behaviors e) a.1) a.2) <$> ms)
      = (t, Panic msg).
Proof.
  induction ms as [|a ms IH]; intros r pre k Hcands Hobs Hnot Hk; [cbn in Hk; lia|].
  cbn [fmap list_fmap] in Hnot. apply not_elem_of_cons in Hnot as [Hne Hnot].
  cbn [fmap list_fmap forEach]. rewrite goroutine_delivered.
  destruct r as [rc ro rca ri rm re].
  cbn [Control Candidates Observations Ignored Mismatched Errors] in *. subst ro rca.
  unfold runCollectBody.
  destruct (String.eqb_spec a.1 name) as [Heq|_]; [by rewrite Heq in Hne|].
  destruct k as [|k].
  - destruct (store_full pre (Some (delivered e a))) as [msg Hs].
    destruct (took e a.2);
      cbn [setErrors Control Candidates Observations Ignored Mismatched Errors];
      eexists _, _; apply bind_Panic; apply bind_Panic; exact Hs.
  - destruct (took e a.2) eqn:Htook;
      cbn [setErrors setControl Control Candidates Observations Ignored Mismatched Errors];
      rewrite store_next, bind_Ok;
      cbn [fst snd app setCandidates setErrors Control Candidates Observations
           Ignored Mismatched Errors];
      rewrite store_next_shifted, bind_Ok;
      cbn [fst snd mret M_ret app setObservations Control Candidates Observations
           Ignored Mismatched Errors];
      rewrite bind_Ok;
      replace (length pre + 1) with (length (pre ++ [Some (delivered e a)]))
        by (rewrite length_app; reflexivity);
      match goal with
      | |- context [forEach ?body (?r', _) _] =>
          change body with (runCollectBody e name);
          edestruct (IH r' (pre ++ [Some (delivered e a)]) k)
            as (t & msg & Hloop); [reflexivity..|done|cbn in Hk; lia|]
      end;
      rewrite Hloop; by eexists _, _.
Qed.

(** [Run] needs the control to be registered: when it is not, every behavior
    is a candidate and [Candidates] is one slot short, or its length is
    negative. *)
Lemma Run_without_control_panics e name w :
  behaviors e !! name = None -> wfSchedule e w ->
  exists t msg, Run e name w = (t, Panic msg).
Proof.
  intros Habs [Hrange Harr].
  assert (Hnot : name ∉ keys e).
  { intros [b Hb]%keys_elem_of. by rewrite Habs in Hb. }
  pose proof (keys_length e) as Hlen.
  unfold Run. fold (emptyResult (V:=V)).
  destruct (size (behaviors e)) as [|n] eqn:Hsize.
  - eexists _, _. eapply bind_eq; [apply beforeRun_eq|]. cbn zeta.
    apply bind_Panic. reflexivity.
  - destruct (runConcurrently e) eqn:Hconc; cbn [negb].
    + edestruct (collectLoop_overflow e name (arrival w)
                   {| Control := None; Observations := replicate (S n) None;
                      Candidates := replicate n None; Ignored := []; Mismatched := [];
                      Errors := Errors match before e tt with
                                       | Some berr =>
                                           setErrors (emptyResult (V:=V))
                                             (Errors (emptyResult (V:=V))
                                                ++ [resultErr e "before_run" berr])
                                       | None => emptyResult (V:=V)
                                       end |} [] n)
        as (t & msg & Hloop); [reflexivity..| | |].
      * by rewrite Harr.
      * rewrite <- (length_fmap fst), Harr. lia.
      * eexists _, _. eapply bind_eq; [apply beforeRun_eq|]. cbn zeta.
        eapply bind_eq; [apply make_pred|].
        eapply bind_eq; [apply make_nat|].
        apply bind_Panic. apply bind_Panic.
        destruct (before e tt); exact Hloop.
    + edestruct (sequentialLoop_overflow e name (observed e name) (rangeOrder w)
                   {| Control := Some (observed e name);
                      Observations := Some (observed e name) :: replicate n None;
                      Candidates := replicate n None; Ignored := []; Mismatched := [];
                      Errors := Errors match before e tt with
                                       | Some berr =>
                                           setErrors (emptyResult (V:=V))
                                             (Errors (emptyResult (V:=V))
                                                ++ [resultErr e "before_run" berr])
                                       | None => emptyResult (V:=V)
                                       end |} [] (Some (observed e name)) n)
        as (t & msg & Hloop); [reflexivity..| | |].
      * by rewrite Hrange.
      * rewrite Hrange. lia.
      * eexists _, _. eapply bind_eq; [apply beforeRun_eq|]. cbn zeta.
        eapply bind_eq; [apply make_pred|].
        eapply bind_eq; [apply make_nat|].
        apply bind_Panic.
        cbn zeta. cbn [Control Candidates Observations Ignored Mismatched Errors
                        setObservations setCandidates setControl].
        eapply bind_eq; [apply store_lt; destruct (before e tt); cbn; lia|].
        cbn [replicate insert list_insert].
        apply bind_Panic.
        destruct (before e tt); exact Hloop.
Qed.

Lemma Run_returns e name w :
  is_Some (behaviors e !! name) -> wfSchedule e w ->
  exists t r, Run e name w = (t, Ok r)
    /\ Control r = Some (slot e w name)
    /\ Candidates r = Some <$> (slot e w <$> candidateNames e name w)
    /\ Ignored r = Ignored (published e name w)
    /\ Mismatched r = Mismatched (published e name w)
    /\ Errors (published e name w) `prefix_of` Errors r.
Proof.
  intros Hreg Hwf. rewrite (Run_closed e name w Hreg Hwf).
  eexists _, _. split; [reflexivity|].
  unfold returned. destruct (publisher e (published e name w)); cbn.
  - repeat split; try reflexivity. by eexists.
  - repeat split; reflexivity.
Qed.

Lemma index_lookup (m : gmap string (option (behaviorFunc V))) k b :
  m !! k = Some b -> index m k = b.
Proof. unfold index. by intros ->. Qed.



Lemma observe_Name e n b : Name (observe e n b) = n.
Proof.
  unfold observe.
  destruct (match b with None => index (behaviors e) n | Some _ => b end) as [f|];
    [by destruct (f tt)|done].
Qed.

Lemma slot_Name e w n : Name (slot e w n) = n.
Proof.
  unfold slot, observed, timedOut.
  destruct (runConcurrently e && expired e w n); [done|apply observe_Name].
Qed.

(** ** The control observation *)


(** ** The order of the candidates *)

(** C3, as the code has it.  With the control registered among [n + 1]
    behaviors, [Run] returns a [Result] whose [Candidates] has length [n] and
    holds one observation per non-control behavior: in sequential mode in
    the order in which [range] yields the keys of the behaviors map, in
    concurrent mode in the order in which the results arrive on the result
    channel. *)
Theorem candidates_in_schedule_order e name w :
  is_Some (behaviors e !! name) -> wfSchedule e w ->
  exists t r, Run e name w = (t, Ok r)
    /\ S (length (Candidates r)) = size (behaviors e)
    /\ Candidates r
       = (fun n => Some (slot e w n))
           <$> filter (fun n => n ≠ name)
                      (if runConcurrently e then (arrival w).*1 else rangeOrder w)
    /\ slotNames (Candidates r)
       = Some <$> filter (fun n => n ≠ name)
                         (if runConcurrently e then (arrival w).*1 else rangeOrder w).
Proof.
  intros Hreg Hwf.
  destruct (Run_returns e name w Hreg Hwf) as (t & r & Hrun & _ & Hcands & _).
  exists t, r. split; [done|]. rewrite Hcands. unfold candidateNames.
  destruct Hwf as [Hrange Harr]. split; [|split].
  - rewrite !length_fmap.
    destruct (runConcurrently e); by apply candidates_count.
  - by rewrite <- list_fmap_compose.
  - unfold slotNames. rewrite <- !list_fmap_compose. apply list_fmap_ext.
    intros i n _. cbn. by rewrite slot_Name.
Qed.

(** ** Timeouts *)

Lemma expired_true e w n :
  is_Some (timeout e) -> (n, true) ∈ arrival w -> expired e w n = true.
Proof.
  intros [z Hz] Hin. unfold expired, createContext. rewrite Hz.
  by apply bool_decide_eq_true_2.
Qed.

Lemma expired_false e w n :
  NoDup ((arrival w).*1) -> (n, false) ∈ arrival w -> expired e w n = false.
Proof.
  intros Hnd Hin. unfold expired. destruct (createContext e); [|done].
  apply bool_decide_eq_false_2. intros Hin'.
  by pose proof (arrival_flag_unique _ _ _ _ Hnd Hin Hin').
Qed.

Lemma published_Errors e name w :
  Errors (published e name w)
  = (beforeErrors e ++ timeoutErrors e w)
      ++ Errors (classifyAll e (slot e w name) (slot e w <$> candidateNames e name w)).2.
Proof. reflexivity. Qed.

(** C4, as the code has it.  In concurrent mode with a timeout configured,
    a behavior whose context expired before its observation was delivered
    gets an observation that carries its name only: the value is nil and so
    is the error.  The timeout error is recorded as an operation error
    "timeout" in [Errors].  When the control itself completed in time, the
    control observation is the one made from the control behavior. *)
Theorem timed_out_behavior_recorded e name w n :
  is_Some (behaviors e !! name) -> wfSchedule e w ->
  runConcurrently e = true -> is_Some (timeout e) -> (n, true) ∈ arrival w ->
  exists t r o, Run e name w = (t, Ok r)
    /\ Name o = n /\ Value o = None /\ Err o = None
    /\ (if decide (n = name) then Control r = Some o else Some o ∈ Candidates r)
    /\ resultErr e "timeout" deadlineExceededError ∈ Errors r
    /\ ((name, false) ∈ arrival w -> Control r = Some (observed e name)).
Proof.
  intros Hreg Hwf Hconc Htime Hin.
  destruct (Run_returns e name w Hreg Hwf)
    as (t & r & Hrun & Hctl & Hcands & _ & _ & Herrs).
  assert (Hnd : NoDup ((arrival w).*1)) by (rewrite (proj2 Hwf); apply keys_NoDup).
  assert (Hslot : slot e w n = timedOut n).
  { unfold slot. by rewrite Hconc, (expired_true e w n Htime Hin). }
  exists t, r, (timedOut n). repeat split; try done.
  - case_decide as Hn.
    + by rewrite Hctl, <- Hn, Hslot.
    + rewrite Hcands, <- Hslot. apply list_elem_of_fmap_2, list_elem_of_fmap_2.
      unfold candidateNames. rewrite Hconc. apply list_elem_of_filter. split; [done|].
      apply list_elem_of_fmap. by exists (n, true).
  - eapply elem_of_prefix; [|exact Herrs]. rewrite published_Errors.
    apply elem_of_app; left. apply elem_of_app; right.
    unfold timeoutErrors, arrivalErrors. rewrite Hconc.
    apply list_elem_of_bind. exists (n, true). split; [|done].
    unfold took, createContext. destruct Htime as [z ->]. cbn.
    by apply list_elem_of_singleton.
  - intros Hc. rewrite Hctl. unfold slot. by rewrite (expired_false e w name Hnd Hc), andb_false_r.
Qed.

(** ** [observe] *)


(** ** [Ignored] and [Mismatched] *)

Lemma classify_unfold e c d tm ok merr ti ib ierr :
  matching e (Some c) (Some d) = (tm, Ok (ok, merr)) ->
  ignoring e (Some c) (Some d) = (ti, Ok (ib, ierr)) ->
  classify e c d
  = if match merr with Some _ => false | None => ok end
    then (tm, emptyResult)
    else (tm ++ ti,
          {| Control := None; Observations := []; Candidates := [];
             Ignored := if match ierr with Some _ => false | None => ib end
                        then [Some d] else [];
             Mismatched := if match ierr with Some _ => false | None => ib end
                           then [] else [Some d];
             Errors := compareErrors e merr ++ ignoreErrors e ierr |}).
Proof.
  intros Hm Hi. unfold classify.
  rewrite (processObservation_unfold e _ c d _ _ _ _ _ _ Hm Hi).
  by destruct (match merr with Some _ => false | None => ok end).
Qed.

Lemma published_Ignored e name w o :
  o ∈ Ignored (published e name w)
  <-> exists d, o = Some d /\ d ∈ slot e w <$> candidateNames e name w
                /\ Ignored (classify e (slot e w name) d).2 = [Some d]
                /\ Mismatched (classify e (slot e w name) d).2 = [].
Proof.
  change (Ignored (published e name w))
    with ((slot e w <$> candidateNames e name w)
            ≫= (fun d => Ignored (classify e (slot e w name) d).2)).
  rewrite list_elem_of_bind. split.
  - intros (d & Ho & Hd). exists d.
    destruct (classify_shape e (slot e w name) d)
      as [(_ & Hi & _)|[[Hi Hm]|[Hi Hm]]]; rewrite Hi in Ho.
    + by apply elem_of_nil in Ho.
    + by apply list_elem_of_singleton in Ho.
    + by apply elem_of_nil in Ho.
  - intros (d & -> & Hd & Hi & _). exists d. rewrite Hi.
    split; [by apply list_elem_of_singleton|done].
Qed.

Lemma published_Mismatched e name w o :
  o ∈ Mismatched (published e name w)
  <-> exists d, o = Some d /\ d ∈ slot e w <$> candidateNames e name w
                /\ Mismatched (classify e (slot e w name) d).2 = [Some d]
                /\ Ignored (classify e (slot e w name) d).2 = [].
Proof.
  change (Mismatched (published e name w))
    with ((slot e w <$> candidateNames e name w)
            ≫= (fun d => Mismatched (classify e (slot e w name) d).2)).
  rewrite list_elem_of_bind. split.
  - intros (d & Ho & Hd). exists d.
    destruct (classify_shape e (slot e w name) d)
      as [(_ & _ & Hm & _)|[[Hi Hm]|[Hi Hm]]]; rewrite Hm in Ho.
    + by apply elem_of_nil in Ho.
    + by apply elem_of_nil in Ho.
    + by apply list_elem_of_singleton in Ho.
  - intros (d & -> & Hd & Hm & _). exists d. rewrite Hm.
    split; [by apply list_elem_of_singleton|done].
Qed.

Lemma candidateNames_NoDup e name w :
  wfSchedule e w -> NoDup (candidateNames e name w).
Proof.
  intros [Hrange Harr]. unfold candidateNames. apply NoDup_filter.
  destruct (runConcurrently e); [rewrite Harr|rewrite Hrange]; apply keys_NoDup.
Qed.

(** C8.  Under any schedule of the runtime, [Run] returns a [Result] when
    the control is registered, and every [Result] it returns is such that:
    no pointer is in both [Ignored] and [Mismatched]; every element of
    either is one of the [Candidates], which are pairwise distinct; and for
    a candidate that is in neither, [matching] against the control returned
    true without error. *)
Theorem ignored_mismatched_partition e name w :
  wfSchedule e w ->
  (is_Some (behaviors e !! name) -> exists t r, Run e name w = (t, Ok r))
  /\ forall t r, Run e name w = (t, Ok r) ->
      exists ctl, Control r = Some ctl
        /\ NoDup (Candidates r)
        /\ (forall o, o ∈ Ignored r -> o ∉ Mismatched r)
        /\ (forall o, o ∈ Ignored r -> o ∈ Candidates r)
        /\ (forall o, o ∈ Mismatched r -> o ∈ Candidates r)
        /\ (forall d, Some d ∈ Candidates r ->
              Some d ∉ Ignored r -> Some d ∉ Mismatched r ->
              exists tm, matching e (Some ctl) (Some d) = (tm, Ok (true, None))).
Proof.
  intros Hwf. split.
  { intros Hreg. destruct (Run_returns e name w Hreg Hwf) as (t & r & Hrun & _).
    by exists t, r. }
  intros t0 r0 Hrun0.
  destruct (behaviors e !! name) as [b|] eqn:Hb.
  2: { destruct (Run_without_control_panics e name w Hb Hwf) as (t & msg & Hrun).
       rewrite Hrun in Hrun0. discriminate. }
  assert (Hreg : is_Some (behaviors e !! name)) by (rewrite Hb; by eexists).
  destruct (Run_returns e name w Hreg Hwf)
    as (t & r & Hrun & Hctl & Hcands & Hign & Hmis & _).
  rewrite Hrun in Hrun0. injection Hrun0 as <- <-.
  exists (slot e w name). rewrite Hcands, Hign, Hmis.
  split; [done|]. split; [|split; [|split; [|split]]].
  - apply NoDup_fmap_2; [apply _|].
    apply NoDup_fmap_2_strong; [|by apply candidateNames_NoDup].
    intros x y _ _ Heq. by rewrite <- (slot_Name e w x), Heq, slot_Name.
  - intros o (d & -> & _ & Hi & _)%published_Ignored
             (d' & [= <-] & _ & _ & Hi')%published_Mismatched.
    by rewrite Hi in Hi'.
  - intros o (d & -> & Hd & _)%published_Ignored. by apply list_elem_of_fmap_2.
  - intros o (d & -> & Hd & _)%published_Mismatched. by apply list_elem_of_fmap_2.
  - intros d (d' & [= <-] & Hd)%list_elem_of_fmap Hni Hnm.
    destruct (classify_shape e (slot e w name) d) as [(Hm & _)|[[Hi Hm]|[Hi Hm]]].
    + by eexists.
    + destruct Hni. apply published_Ignored. by exists d.
    + destruct Hnm. apply published_Mismatched. by exists d.
Qed.

(** ** Timed-out candidates are classified *)

(** C9.  In concurrent mode a candidate whose context expired is classified
    like any other.  Its observation has a nil value and a nil error; so
    when the control completed and returned no error, the comparator is
    invoked with the control's value and nil.  If the comparator answers
    true without error the candidate is in neither [Ignored] nor
    [Mismatched]; otherwise the ignore predicates decide: it is in [Ignored]
    when one of them accepts the pair, and in [Mismatched] if not. *)
Theorem timed_out_candidate_is_classified e name w n f :
  wfSchedule e w ->
  runConcurrently e = true -> is_Some (timeout e) ->
  n ≠ name -> (n, true) ∈ arrival w ->
  (name, false) ∈ arrival w ->
  behaviors e !! name = Some (Some f) -> (f tt).2 = None ->
  exists t r, Run e name w = (t, Ok r)
    /\ Some (timedOut n) ∈ Candidates r
    /\ EvCompare (f tt).1 None ∈ t
    /\ match comparator e (f tt).1 None with
       | (true, None) =>
           ~ (Some (timedOut n) ∈ Ignored r) /\ ~ (Some (timedOut n) ∈ Mismatched r)
       | _ =>
           exists ti ib ierr,
             ignoring e (Some (observed e name)) (Some (timedOut n)) = (ti, Ok (ib, ierr))
             /\ if match ierr with Some _ => false | None => ib end
                then Some (timedOut n) ∈ Ignored r /\ Some (timedOut n) ∉ Mismatched r
                else Some (timedOut n) ∈ Mismatched r /\ Some (timedOut n) ∉ Ignored r
       end.
Proof.
  intros Hwf Hconc Htime Hne Hin Hctl Hf Herr.
  assert (Hreg : is_Some (behaviors e !! name)) by (by eexists).
  assert (Hnd : NoDup ((arrival w).*1)) by (rewrite (proj2 Hwf); apply keys_NoDup).
  assert (Hc : slot e w name = observed e name).
  { unfold slot. by rewrite (expired_false e w name Hnd Hctl), andb_false_r. }
  assert (Hd : slot e w n = timedOut n).
  { unfold slot. by rewrite Hconc, (expired_true e w n Htime Hin). }
  assert (Hcv : Value (observed e name) = (f tt).1 /\ Err (observed e name) = None).
  { unfold observed, observe. rewrite (index_lookup _ _ _ Hf). cbn.
    destruct (f tt) as [v x]; cbn in *. by subst. }
  destruct Hcv as [Hcv Hce].
  assert (Hcand : timedOut n ∈ slot e w <$> candidateNames e name w).
  { rewrite <- Hd. apply list_elem_of_fmap_2. unfold candidateNames. rewrite Hconc.
    apply list_elem_of_filter. split; [done|]. apply list_elem_of_fmap. by exists (n, true). }
  pose proof (matching_neither e (observed e name) (timedOut n) Hce eq_refl) as Hm.
  rewrite Hcv in Hm. cbn [Value timedOut] in Hm.
  destruct (ignoring_total e (observed e name) (timedOut n)) as (ti & ib & ierr & Hi & _).
  destruct (comparator e (f tt).1 None) as [ok merr] eqn:Hcmp.
  pose proof (classify_unfold e _ _ _ _ _ _ _ _ Hm Hi) as Hcl.
  rewrite (Run_closed e name w Hreg Hwf). eexists _, _. split; [reflexivity|].
  assert (Hsame : forall d', Some (timedOut n) = Some d' -> d' = timedOut n)
    by (by intros d' [= <-]).
  split; [|split].
  - unfold returned. destruct (publisher e (published e name w));
      by apply list_elem_of_fmap_2.
  - unfold runTrace. rewrite elem_of_cons, elem_of_app. right; left.
    apply list_elem_of_bind. exists (timedOut n). split; [|done].
    rewrite Hc, Hcl. destruct (match merr with Some _ => false | None => ok end); cbn.
    + by apply list_elem_of_singleton.
    + by left.
  - assert (Hign : Ignored (returned e name w) = Ignored (published e name w)).
    { unfold returned. by destruct (publisher e (published e name w)). }
    assert (Hmis : Mismatched (returned e name w) = Mismatched (published e name w)).
    { unfold returned. by destruct (publisher e (published e name w)). }
    rewrite Hign, Hmis.
    assert (Hin_ign : Ignored (classify e (observed e name) (timedOut n)).2 = [Some (timedOut n)] ->
                      Mismatched (classify e (observed e name) (timedOut n)).2 = [] ->
                      Some (timedOut n) ∈ Ignored (published e name w)).
    { intros H1 H2. apply published_Ignored. exists (timedOut n). by rewrite Hc. }
    assert (Hin_mis : Mismatched (classify e (observed e name) (timedOut n)).2 = [Some (timedOut n)] ->
                      Ignored (classify e (observed e name) (timedOut n)).2 = [] ->
                      Some (timedOut n) ∈ Mismatched (published e name w)).
    { intros H1 H2. apply published_Mismatched. exists (timedOut n). by rewrite Hc. }
    assert (Hout_ign : Ignored (classify e (observed e name) (timedOut n)).2 = [] ->
                       Some (timedOut n) ∉ Ignored (published e name w)).
    { intros H1 (d' & ->%Hsame & _ & Hx & _)%published_Ignored.
      rewrite Hc in Hx. by rewrite H1 in Hx. }
    assert (Hout_mis : Mismatched (classify e (observed e name) (timedOut n)).2 = [] ->
                       Some (timedOut n) ∉ Mismatched (published e name w)).
    { intros H1 (d' & ->%Hsame & _ & Hx & _)%published_Mismatched.
      rewrite Hc in Hx. by rewrite H1 in Hx. }
    assert (Hlanded :
      match merr with Some _ => false | None => ok end = false ->
      exists ti ib ierr,
        ignoring e (Some (observed e name)) (Some (timedOut n)) = (ti, Ok (ib, ierr))
        /\ if match ierr with Some _ => false | None => ib end
           then Some (timedOut n) ∈ Ignored (published e name w)
                /\ Some (timedOut n) ∉ Mismatched (published e name w)
           else Some (timedOut n) ∈ Mismatched (published e name w)
                /\ Some (timedOut n) ∉ Ignored (published e name w)).
    { intros Hnot. rewrite Hnot in Hcl. exists ti, ib, ierr. split; [done|].
      destruct (match ierr with Some _ => false | None => ib end).
      - split; [apply Hin_ign|apply Hout_mis]; by rewrite Hcl.
      - split; [apply Hin_mis|apply Hout_ign]; by rewrite Hcl. }
    destruct ok, merr as [x|]; try (by apply Hlanded).
    cbn in Hcl. split; [apply Hout_ign|apply Hout_mis]; by rewrite Hcl.
Qed.

(** ** Publishing *)

(** C10.  [Run] invokes the publisher once.  The [Result] it hands over holds
    no operation error "publish".  If the publisher returns an error, that
    error is appended to [Errors] afterwards: it is in the [Result] that
    [Run] returns and in the errors passed to the error reporter, which is
    invoked after the publisher. *)
Theorem publisher_sees_no_publish_error e name w :
  is_Some (behaviors e !! name) -> wfSchedule e w ->
  exists t1 rp t2 r, Run e name w = (t1 ++ EvPublish rp :: t2, Ok r)
    /\ (forall r', EvPublish r' ∉ t1 ++ t2)
    /\ (forall x, x ∈ Errors rp -> Operation x ≠ "publish")
    /\ (forall perr, publisher e rp = Some perr ->
          Errors r = Errors rp ++ [resultErr e "publish" perr]
          /\ t2 = [EvReportErrors (Errors r)])
    /\ (publisher e rp = None -> r = rp).
Proof.
  intros Hreg Hwf. rewrite (Run_closed e name w Hreg Hwf).
  exists (EvBeforeRun
            :: (classifyAll e (slot e w name) (slot e w <$> candidateNames e name w)).1),
         (published e name w),
         (match Errors (returned e name w) with
          | [] => []
          | _ :: _ => [EvReportErrors (Errors (returned e name w))]
          end),
         (returned e name w).
  split; [reflexivity|]. split; [|split; [|split]].
  - intros r'. rewrite elem_of_app, elem_of_cons. intros [[Hev|Hev]|Hev].
    + done.
    + apply list_elem_of_bind in Hev as (d & Hev & _).
      apply classify_events in Hev as [Hev|[k Hev]]; done.
    + destruct (Errors (returned e name w)); [by apply elem_of_nil in Hev|].
      by apply list_elem_of_singleton in Hev.
  - intros x. rewrite published_Errors, !elem_of_app. intros [[Hx|Hx]|Hx].
    + unfold beforeErrors in Hx. destruct (before e tt); [|by apply elem_of_nil in Hx].
      apply list_elem_of_singleton in Hx. by subst x.
    + unfold timeoutErrors, arrivalErrors in Hx.
      destruct (runConcurrently e); [|by apply elem_of_nil in Hx].
      apply list_elem_of_bind in Hx as (a & Hx & _).
      destruct (took e a.2); [|by apply elem_of_nil in Hx].
      apply list_elem_of_singleton in Hx. by subst x.
    + apply list_elem_of_bind in Hx as (d & Hx & _).
      apply classify_operations in Hx as [_ [-> | ->]]; done.
  - intros perr Hp. unfold returned. rewrite Hp. cbn [Errors setErrors].
    split; [done|]. by destruct (Errors (published e name w)).
  - intros Hp. unfold returned. by rewrite Hp.
Qed.

(** * Further properties of [Run] *)

Lemma returned_fields e name w :
  Control (returned e name w) = Some (slot e w name)
  /\ Candidates (returned e name w) = Some <$> (slot e w <$> candidateNames e name w)
  /\ Observations (returned e name w)
     = Some (slot e w name) :: (Some <$> (slot e w <$> candidateNames e name w))
  /\ Ignored (returned e name w) = Ignored (published e name w)
  /\ Mismatched (returned e name w) = Mismatched (published e name w).
Proof.
  unfold returned. by destruct (publisher e (published e name w)).
Qed.

Lemma slot_observed e w n :
  runConcurrently e = false \/ timeout e = None -> slot e w n = observed e n.
Proof.
  unfold slot, expired, createContext.
  intros [->| ->]; [done|]. by rewrite andb_false_r.
Qed.

Lemma bind_nil (A B : Type) (f : A -> list B) (l : list A) :
  (forall x, x ∈ l -> f x = []) -> l ≫= f = [].
Proof.
  induction l as [|x l IH]; [done|]. intros Hf. cbn.
  rewrite (Hf x) by apply list_elem_of_here. cbn. apply IH.
  intros y Hy. apply Hf. by apply list_elem_of_further.
Qed.

(** ** A missing control *)


(** ** The [Observations] slice *)

(** In the returned [Result], [Observations] holds the control observation
    followed by the candidates in the order of [Candidates]; it has one
    entry per registered behavior and no entry is nil. *)
Theorem observations_are_control_then_candidates e name w :
  is_Some (behaviors e !! name) -> wfSchedule e w ->
  exists t r, Run e name w = (t, Ok r)
    /\ Observations r = Control r :: Candidates r
    /\ length (Observations r) = size (behaviors e)
    /\ Forall is_Some (Observations r).
Proof.
  intros Hreg Hwf. rewrite (Run_closed e name w Hreg Hwf).
  eexists _, _. split; [reflexivity|].
  destruct (returned_fields e name w) as (Hc & Hcands & Hobs & _).
  rewrite Hobs, Hc, Hcands. split; [done|]. split.
  - cbn. rewrite !length_fmap. unfold candidateNames.
    destruct Hwf as [Hrange Harr].
    destruct (runConcurrently e); by apply candidates_count.
  - apply Forall_cons. split; [by eexists|].
    apply Forall_fmap, Forall_true. intros d. by eexists.
Qed.

(** ** The order of [Errors] *)

Lemma publishErrors_cases e (perr : option error) :
  match perr with Some x => [resultErr e "publish" x] | None => [] end = []
  \/ exists x, match perr with Some x => [resultErr e "publish" x] | None => [] end
               = [resultErr e "publish" x].
Proof. destruct perr; [right; by eexists|by left]. Qed.

Lemma returned_Errors e name w :
  Errors (returned e name w)
  = beforeErrors e ++ timeoutErrors e w
    ++ Errors (classifyAll e (slot e w name) (slot e w <$> candidateNames e name w)).2
    ++ match publisher e (published e name w) with
       | Some perr => [resultErr e "publish" perr]
       | None => []
       end.
Proof.
  unfold returned. destruct (publisher e (published e name w)); cbn [Errors setErrors];
    rewrite published_Errors, <- ?app_assoc, ?app_nil_r; reflexivity.
Qed.

Lemma classifyAll_operations e c ds :
  Forall (fun x => ExperimentName x = ExpName e
                   /\ (Operation x = "compare" \/ Operation x = "ignore"))
         (Errors (classifyAll e c ds).2).
Proof.
  apply Forall_forall. intros x Hx. cbn in Hx.
  apply list_elem_of_bind in Hx as (d & Hx & _). by apply classify_operations in Hx.
Qed.

Lemma beforeErrors_operations e :
  Forall (fun x => ExperimentName x = ExpName e /\ Operation x = "before_run")
         (beforeErrors e).
Proof. unfold beforeErrors. destruct (before e tt); by repeat constructor. Qed.

Lemma timeoutErrors_operations e w :
  Forall (fun x => ExperimentName x = ExpName e /\ Operation x = "timeout")
         (timeoutErrors e w).
Proof.
  unfold timeoutErrors, arrivalErrors. destruct (runConcurrently e); [|constructor].
  apply Forall_forall. intros x (a & Hx & _)%list_elem_of_bind.
  destruct (took e a.2); [|by apply elem_of_nil in Hx].
  apply list_elem_of_singleton in Hx. by subst x.
Qed.

(** The operation errors of the returned [Result] come in this order: the
    error of the before-run hook, if any; one "timeout" error per expired
    context, in arrival order; the "compare" and "ignore" errors of the
    classification; the error of the publisher, if any.  Every entry carries
    the experiment's name. *)
Theorem errors_in_order e name w :
  is_Some (behaviors e !! name) -> wfSchedule e w ->
  exists t r cls pub, Run e name w = (t, Ok r)
    /\ Errors r = beforeErrors e ++ timeoutErrors e w ++ cls ++ pub
    /\ Forall (fun x => Operation x = "compare" \/ Operation x = "ignore") cls
    /\ (pub = [] \/ exists perr, pub = [resultErr e "publish" perr])
    /\ Forall (fun x => ExperimentName x = ExpName e) (Errors r).
Proof.
  intros Hreg Hwf. rewrite (Run_closed e name w Hreg Hwf).
  eexists _, _, _, _. split; [reflexivity|].
  split; [apply returned_Errors|]. split; [|split].
  - eapply Forall_impl; [apply classifyAll_operations|]. by intros x [_ ?].
  - apply publishErrors_cases.
  - rewrite returned_Errors, !Forall_app. repeat split.
    + eapply Forall_impl; [apply beforeErrors_operations|]. by intros x [? _].
    + eapply Forall_impl; [apply timeoutErrors_operations|]. by intros x [? _].
    + eapply Forall_impl; [apply classifyAll_operations|]. by intros x [? _].
    + destruct (publisher e (published e name w)); by repeat constructor.
Qed.

(** ** The hooks *)

Lemma classifyAll_events e c ds ev :
  ev ∈ (classifyAll e c ds).1 ->
  (exists v1 v2, ev = EvCompare v1 v2) \/ (exists k v1 v2, ev = EvIgnore k v1 v2).
Proof.
  cbn. intros (d & Hev & _)%list_elem_of_bind.
  apply classify_events in Hev as [->|[k ->]]; [left|right]; by repeat eexists.
Qed.

(** The error reporter is invoked when, and only when, the returned [Result]
    has operation errors: then it is the last callback of the run and is
    handed exactly the [Errors] that [Run] returns; with no errors it is
    never invoked. *)
Theorem error_reporter_called_iff_errors e name w :
  is_Some (behaviors e !! name) -> wfSchedule e w ->
  exists t r, Run e name w = (t, Ok r)
    /\ match Errors r with
       | [] => forall errs, EvReportErrors errs ∉ t
       | _ :: _ => exists t0, t = t0 ++ [EvReportErrors (Errors r)]
                              /\ forall errs, EvReportErrors errs ∉ t0
       end.
Proof.
  intros Hreg Hwf. rewrite (Run_closed e name w Hreg Hwf).
  eexists _, _. split; [reflexivity|]. unfold runTrace.
  assert (Hfront : forall errs,
            EvReportErrors errs
            ∉ EvBeforeRun
                :: (classifyAll e (slot e w name) (slot e w <$> candidateNames e name w)).1
                ++ [EvPublish (published e name w)]).
  { intros errs. rewrite elem_of_cons, elem_of_app, list_elem_of_singleton.
    intros [?|[Hev|?]]; try done.
    apply classifyAll_events in Hev as [(? & ? & ?)|(? & ? & ? & ?)]; done. }
  destruct (Errors (returned e name w)) as [|x errs0] eqn:Herrs.
  - intros errs Hin. apply (Hfront errs).
    rewrite app_comm_cons, elem_of_app in Hin. rewrite app_comm_cons, elem_of_app.
    destruct Hin as [?|Hin]; [by left|right].
    apply elem_of_cons in Hin as [?|Hin]; [by apply list_elem_of_singleton|].
    by apply elem_of_nil in Hin.
  - eexists. split; [|exact Hfront].
    rewrite (app_comm_cons _ [EvPublish _]), <- app_assoc. reflexivity.
Qed.

(** The before-run hook is invoked once, before anything else.  An error it
    returns does not stop the run: it is recorded as the first operation
    error, and no other entry of [Errors] has the operation "before_run". *)
Theorem before_run_called_first e name w :
  is_Some (behaviors e !! name) -> wfSchedule e w ->
  exists t r, Run e name w = (EvBeforeRun :: t, Ok r)
    /\ ~ (EvBeforeRun ∈ t)
    /\ match before e tt with
       | Some berr =>
           exists rest, Errors r = resultErr e "before_run" berr :: rest
                        /\ Forall (fun x => Operation x ≠ "before_run") rest
       | None => Forall (fun x => Operation x ≠ "before_run") (Errors r)
       end.
Proof.
  intros Hreg Hwf. rewrite (Run_closed e name w Hreg Hwf).
  eexists _, _. split; [reflexivity|]. split.
  - rewrite elem_of_app, elem_of_cons. intros [Hev|[?|Hev]]; try done.
    + apply classifyAll_events in Hev as [(? & ? & ?)|(? & ? & ? & ?)]; done.
    + destruct (Errors (returned e name w)); [by apply elem_of_nil in Hev|].
      by apply list_elem_of_singleton in Hev.
  - assert (Hrest : Forall (fun x => Operation x ≠ "before_run")
                      (timeoutErrors e w
                       ++ Errors (classifyAll e (slot e w name)
                                    (slot e w <$> candidateNames e name w)).2
                       ++ match publisher e (published e name w) with
                          | Some perr => [resultErr e "publish" perr]
                          | None => []
                          end)).
    { rewrite !Forall_app. repeat split.
      - eapply Forall_impl; [apply timeoutErrors_operations|]. by intros x [_ ->].
      - eapply Forall_impl; [apply classifyAll_operations|]. by intros x [_ [-> | ->]].
      - destruct (publisher e (published e name w)); by repeat constructor. }
    rewrite returned_Errors. unfold beforeErrors.
    destruct (before e tt); [by eexists|done].
Qed.

(** ** When a [Result] is matched *)

Lemma IsMatched_nil r : IsMatched r = true <-> Ignored r = [] /\ Mismatched r = [].
Proof.
  unfold IsMatched, IsMismatched, IsIgnored.
  destruct (Ignored r), (Mismatched r); cbn; split; (done || by intros []).
Qed.

Lemma classify_matched e c d tm :
  matching e (Some c) (Some d) = (tm, Ok (true, None)) ->
  classify e c d = (tm, emptyResult).
Proof.
  intros Hm. destruct (ignoring_total e c d) as (ti & ib & ierr & Hi & _).
  by rewrite (classify_unfold e c d _ _ _ _ _ _ Hm Hi).
Qed.

Lemma candidateNames_registered e name w n :
  wfSchedule e w -> n ∈ candidateNames e name w ->
  n ≠ name /\ is_Some (behaviors e !! n).
Proof.
  intros [Hrange Harr] [Hne Hin]%list_elem_of_filter. split; [done|].
  apply keys_elem_of. destruct (runConcurrently e); [by rewrite <- Harr|by rewrite <- Hrange].
Qed.

Lemma observed_registered e n f :
  behaviors e !! n = Some (Some f) ->
  Value (observed e n) = (f tt).1 /\ Err (observed e n) = (f tt).2.
Proof.
  intros Hf. unfold observed, observe. rewrite (index_lookup _ _ _ Hf). cbn.
  by destruct (f tt).
Qed.

(** The returned [Result] is matched exactly when [matching] answered true
    without error for every candidate. *)
Theorem matched_iff_every_candidate_matches e name w :
  is_Some (behaviors e !! name) -> wfSchedule e w ->
  exists t r ctl, Run e name w = (t, Ok r)
    /\ Control r = Some ctl
    /\ (IsMatched r = true
        <-> forall d, Some d ∈ Candidates r ->
              exists tm, matching e (Some ctl) (Some d) = (tm, Ok (true, None))).
Proof.
  intros Hreg Hwf. rewrite (Run_closed e name w Hreg Hwf).
  exists (runTrace e name w), (returned e name w), (slot e w name).
  destruct (returned_fields e name w) as (Hc & Hcands & _ & Hign & Hmis).
  split; [reflexivity|]. split; [exact Hc|].
  rewrite IsMatched_nil, Hcands, Hign, Hmis. split.
  - intros [Hi Hm] d (d' & [= <-] & Hd)%list_elem_of_fmap.
    destruct (classify_shape e (slot e w name) d) as [(Hmatch & _)|[[Hi' Hm']|[Hi' Hm']]].
    + by eexists.
    + assert (Hin : Some d ∈ Ignored (published e name w))
        by (apply published_Ignored; by exists d).
      rewrite Hi in Hin. by apply elem_of_nil in Hin.
    + assert (Hin : Some d ∈ Mismatched (published e name w))
        by (apply published_Mismatched; by exists d).
      rewrite Hm in Hin. by apply elem_of_nil in Hin.
  - intros Hall.
    assert (Hcl : forall d, d ∈ slot e w <$> candidateNames e name w ->
                    (classify e (slot e w name) d).2 = emptyResult).
    { intros d Hd. destruct (Hall d) as [tm Hm]; [by apply list_elem_of_fmap_2|].
      by rewrite (classify_matched e _ _ _ Hm). }
    split.
    + change (Ignored (published e name w))
        with ((slot e w <$> candidateNames e name w)
                ≫= (fun d => Ignored (classify e (slot e w name) d).2)).
      apply bind_nil. intros d Hd. by rewrite (Hcl d Hd).
    + change (Mismatched (published e name w))
        with ((slot e w <$> candidateNames e name w)
                ≫= (fun d => Mismatched (classify e (slot e w name) d).2)).
      apply bind_nil. intros d Hd. by rewrite (Hcl d Hd).
Qed.

(** When every registered behavior returns an error and all these errors
    have the same text, the [Result] is matched whatever the comparator
    would say: neither the comparator nor an ignore predicate is invoked.
    (No context may expire: the run is sequential or has no timeout.) *)
Theorem same_error_text_is_matched e name w s :
  is_Some (behaviors e !! name) -> wfSchedule e w ->
  runConcurrently e = false \/ timeout e = None ->
  (forall k b, behaviors e !! k = Some b ->
     exists f x, b = Some f /\ (f tt).2 = Some x /\ Error x = s) ->
  exists t r, Run e name w = (t, Ok r)
    /\ IsMatched r = true
    /\ (forall v1 v2, EvCompare v1 v2 ∉ t)
    /\ (forall k v1 v2, EvIgnore k v1 v2 ∉ t).
Proof.
  intros Hreg Hwf Hmode Hall. rewrite (Run_closed e name w Hreg Hwf).
  eexists _, _. split; [reflexivity|].
  assert (Herr : forall n, is_Some (behaviors e !! n) ->
                   exists x, Err (slot e w n) = Some x /\ Error x = s).
  { intros n [b Hb]. destruct (Hall n b Hb) as (f & x & -> & Hx & Hs).
    rewrite (slot_observed e w n Hmode).
    destruct (observed_registered e n f Hb) as [_ ->]. by exists x. }
  assert (Hcl : forall d, d ∈ slot e w <$> candidateNames e name w ->
                  classify e (slot e w name) d = ([], emptyResult)).
  { intros d (n & -> & Hn)%list_elem_of_fmap.
    destruct (candidateNames_registered e name w n Hwf Hn) as [_ Hnreg].
    destruct (Herr name Hreg) as (x & Hx & Hxs), (Herr n Hnreg) as (y & Hy & Hys).
    apply classify_matched. rewrite (matching_both e _ _ x y Hx Hy), Hxs, Hys.
    by rewrite String.eqb_refl. }
  assert (Htrace : (classifyAll e (slot e w name)
                      (slot e w <$> candidateNames e name w)).1 = []).
  { cbn. apply bind_nil. intros d Hd. by rewrite (Hcl d Hd). }
  destruct (returned_fields e name w) as (_ & _ & _ & Hign & Hmis).
  split; [|split].
  - apply IsMatched_nil. rewrite Hign, Hmis. split.
    + change (Ignored (published e name w))
        with ((slot e w <$> candidateNames e name w)
                ≫= (fun d => Ignored (classify e (slot e w name) d).2)).
      apply bind_nil. intros d Hd. by rewrite (Hcl d Hd).
    + change (Mismatched (published e name w))
        with ((slot e w <$> candidateNames e name w)
                ≫= (fun d => Mismatched (classify e (slot e w name) d).2)).
      apply bind_nil. intros d Hd. by rewrite (Hcl d Hd).
  - intros v1 v2. unfold runTrace. rewrite Htrace. cbn.
    rewrite !elem_of_cons. intros [?|[?|Hev]]; try done.
    destruct (Errors (returned e name w)); [by apply elem_of_nil in Hev|].
    by apply list_elem_of_singleton in Hev.
  - intros k v1 v2. unfold runTrace. rewrite Htrace. cbn.
    rewrite !elem_of_cons. intros [?|[?|Hev]]; try done.
    destruct (Errors (returned e name w)); [by apply elem_of_nil in Hev|].
    by apply list_elem_of_singleton in Hev.
Qed.

(** When exactly one of the control and a candidate returns an error, the
    candidate is never matched, whatever the comparator would say: it is in
    [Ignored] or in [Mismatched], and the [Result] is not matched.  (No
    context may expire: the run is sequential or has no timeout.) *)
Theorem one_sided_error_is_never_matched e name w n f g :
  wfSchedule e w ->
  runConcurrently e = false \/ timeout e = None ->
  behaviors e !! name = Some (Some f) ->
  n ≠ name -> behaviors e !! n = Some (Some g) ->
  ((f tt).2 = None /\ is_Some (g tt).2) \/ (is_Some (f tt).2 /\ (g tt).2 = None) ->
  exists t r, Run e name w = (t, Ok r)
    /\ Some (observed e n) ∈ Candidates r
    /\ (Some (observed e n) ∈ Ignored r \/ Some (observed e n) ∈ Mismatched r)
    /\ IsMatched r = false.
Proof.
  intros Hwf Hmode Hf Hne Hg Hone.
  assert (Hreg : is_Some (behaviors e !! name)) by (by eexists).
  rewrite (Run_closed e name w Hreg Hwf). eexists _, _. split; [reflexivity|].
  destruct (returned_fields e name w) as (_ & Hcands & _ & Hign & Hmis).
  assert (Hcand : observed e n ∈ slot e w <$> candidateNames e name w).
  { rewrite <- (slot_observed e w n Hmode). apply list_elem_of_fmap_2.
    apply list_elem_of_filter. split; [done|].
    assert (Hk : n ∈ keys e) by (apply keys_elem_of; by eexists).
    destruct Hwf as [Hrange Harr].
    destruct (runConcurrently e); [by rewrite Harr|by rewrite Hrange]. }
  assert (Hm : matching e (Some (slot e w name)) (Some (observed e n))
               = ([], Ok (false, None))).
  { apply matching_one. rewrite (slot_observed e w name Hmode).
    destruct (observed_registered e name f Hf) as [_ ->].
    by destruct (observed_registered e n g Hg) as [_ ->]. }
  destruct (ignoring_total e (slot e w name) (observed e n)) as (ti & ib & ierr & Hi & _).
  pose proof (classify_unfold e _ _ _ _ _ _ _ _ Hm Hi) as Hcl. cbn in Hcl.
  assert (Hland : Some (observed e n) ∈ Ignored (published e name w)
                  \/ Some (observed e n) ∈ Mismatched (published e name w)).
  { destruct (match ierr with Some _ => false | None => ib end) eqn:Hv.
    - left. apply published_Ignored. exists (observed e n). by rewrite Hcl.
    - right. apply published_Mismatched. exists (observed e n). by rewrite Hcl. }
  split; [|split].
  - rewrite Hcands. by apply list_elem_of_fmap_2.
  - by rewrite Hign, Hmis.
  - destruct (IsMatched (returned e name w)) eqn:Hmatched; [|done].
    apply IsMatched_nil in Hmatched as [Hi0 Hm0]. rewrite Hign in Hi0. rewrite Hmis in Hm0.
    rewrite Hi0, Hm0 in Hland. destruct Hland as [H|H]; by apply elem_of_nil in H.
Qed.

(** With no ignore predicate registered, nothing is ever ignored: [Ignored]
    is empty, so a candidate that does not match is in [Mismatched]. *)
Theorem no_predicates_nothing_ignored e name w :
  is_Some (behaviors e !! name) -> wfSchedule e w ->
  ignores e = [] ->
  exists t r ctl, Run e name w = (t, Ok r)
    /\ Control r = Some ctl
    /\ Ignored r = [] /\ IsIgnored r = false
    /\ (forall d, Some d ∈ Candidates r ->
          Some d ∈ Mismatched r
          \/ exists tm, matching e (Some ctl) (Some d) = (tm, Ok (true, None))).
Proof.
  intros Hreg Hwf Hnone. rewrite (Run_closed e name w Hreg Hwf).
  exists (runTrace e name w), (returned e name w), (slot e w name).
  destruct (returned_fields e name w) as (Hc & Hcands & _ & Hign & Hmis).
  split; [reflexivity|]. split; [exact Hc|].
  assert (Hnil : Ignored (published e name w) = []).
  { change (Ignored (published e name w))
      with ((slot e w <$> candidateNames e name w)
              ≫= (fun d => Ignored (classify e (slot e w name) d).2)).
    apply bind_nil. intros d _.
    destruct (matching_total e (slot e w name) d) as (tm & ok & merr & Hm).
    assert (Hi : ignoring e (Some (slot e w name)) (Some d) = ([], Ok (false, None))).
    { unfold ignoring. by rewrite Hnone. }
    rewrite (classify_unfold e _ _ _ _ _ _ _ _ Hm Hi).
    by destruct (match merr with Some _ => false | None => ok end). }
  rewrite Hign, Hmis, Hcands, Hnil. split; [done|]. split.
  - unfold IsIgnored. by rewrite Hign, Hnil.
  - intros d (d' & [= <-] & Hd)%list_elem_of_fmap.
    destruct (classify_shape e (slot e w name) d) as [(Hm & _)|[[Hi' Hm']|[Hi' Hm']]].
    + right. by eexists.
    + assert (Hin : Some d ∈ Ignored (published e name w))
        by (apply published_Ignored; by exists d).
      rewrite Hnil in Hin. by apply elem_of_nil in Hin.
    + left. apply published_Mismatched. by exists d.
Qed.

(** ** The order within [Ignored] and [Mismatched] *)

Lemma bind_sublist (A : Type) (f : A -> list (option A)) (l : list A) :
  (forall x, f x = [] \/ f x = [Some x]) -> (l ≫= f) `sublist_of` (Some <$> l).
Proof.
  intros Hf. induction l as [|x l IH]; [done|]. cbn.
  destruct (Hf x) as [-> | ->]; cbn.
  - by apply sublist_cons.
  - by apply sublist_skip.
Qed.

(** [Ignored] and [Mismatched] list their candidates in the order of
    [Candidates]; together they never hold more entries than it. *)
Theorem ignored_mismatched_keep_order e name w :
  is_Some (behaviors e !! name) -> wfSchedule e w ->
  exists t r, Run e name w = (t, Ok r)
    /\ Ignored r `sublist_of` Candidates r
    /\ Mismatched r `sublist_of` Candidates r
    /\ length (Ignored r) + length (Mismatched r) <= length (Candidates r).
Proof.
  intros Hreg Hwf. rewrite (Run_closed e name w Hreg Hwf).
  eexists _, _. split; [reflexivity|].
  destruct (returned_fields e name w) as (_ & Hcands & _ & Hign & Hmis).
  rewrite Hcands, Hign, Hmis.
  change (Ignored (published e name w))
    with ((slot e w <$> candidateNames e name w)
            ≫= (fun d => Ignored (classify e (slot e w name) d).2)).
  change (Mismatched (published e name w))
    with ((slot e w <$> candidateNames e name w)
            ≫= (fun d => Mismatched (classify e (slot e w name) d).2)).
  split; [|split].
  - apply bind_sublist. intros d.
    destruct (classify_shape e (slot e w name) d) as [(_ & -> & _)|[[-> _]|[-> _]]]; auto.
  - apply bind_sublist. intros d.
    destruct (classify_shape e (slot e w name) d) as [(_ & _ & -> & _)|[[_ ->]|[_ ->]]]; auto.
  - generalize (slot e w <$> candidateNames e name w). intros ds.
    induction ds as [|d ds IH]; [done|]. cbn. rewrite !length_app.
    destruct (classify_shape e (slot e w name) d)
      as [(_ & -> & -> & _)|[[-> ->]|[-> ->]]]; cbn; lia.
Qed.

(** ** One classification step *)

(** [processObservation] only appends: it leaves [Control], [Observations]
    and [Candidates] alone, keeps what [Ignored], [Mismatched] and [Errors]
    already hold, adds the candidate to at most one of the two lists and
    records at most two operation errors. *)
Theorem processObservation_only_appends e r c d :
  exists t r', processObservation e r (Some c) (Some d) = (t, Ok r')
    /\ Control r' = Control r /\ Observations r' = Observations r
    /\ Candidates r' = Candidates r
    /\ Ignored r `prefix_of` Ignored r'
    /\ Mismatched r `prefix_of` Mismatched r'
    /\ Errors r `prefix_of` Errors r'
    /\ length (Ignored r') + length (Mismatched r')
       <= S (length (Ignored r) + length (Mismatched r))
    /\ length (Errors r') <= 2 + length (Errors r).
Proof.
  destruct (matching_total e c d) as (tm & ok & merr & Hm).
  destruct (ignoring_total e c d) as (ti & ib & ierr & Hi & _).
  rewrite (processObservation_unfold e r c d _ _ _ _ _ _ Hm Hi).
  destruct (match merr with Some _ => false | None => ok end).
  - eexists _, _. split; [reflexivity|]. repeat split; try done; lia.
  - eexists _, _. split; [reflexivity|]. cbn.
    repeat split; try (by eexists).
    + rewrite !length_app.
      destruct (match ierr with Some _ => false | None => ib end); cbn; lia.
    + rewrite !length_app. destruct merr, ierr; cbn; lia.
Qed.

Lemma ignoringFrom_all_decline preds idx c d :
  Forall (fun q => q (Value c) (Value d) = (false, None)) preds ->
  ignoringFrom idx preds (Some c) (Some d)
  = (map (fun k => EvIgnore k (Value c) (Value d)) (seq idx (length preds)),
     Ok (false, None)).
Proof.
  intros Hall. revert idx. induction Hall as [|q preds Hq Hall IH]; intros idx; [done|].
  cbn [ignoringFrom deref length seq map]. rewrite !bind_ret, bind_emit, Hq.
  by rewrite IH.
Qed.

(** For a candidate that failed matching, when every ignore predicate
    answers false without error, all of them are invoked, in registration
    order, and the candidate is appended to [Mismatched]; no "ignore" error
    is recorded. *)
Theorem all_predicates_decline e r c d tm ok merr :
  matching e (Some c) (Some d) = (tm, Ok (ok, merr)) ->
  match merr with Some _ => false | None => ok end = false ->
  Forall (fun q => q (Value c) (Value d) = (false, None)) (ignores e) ->
  let evs := map (fun k => EvIgnore k (Value c) (Value d)) (seq 0 (length (ignores e))) in
  ignoring e (Some c) (Some d) = (evs, Ok (false, None))
  /\ exists r', processObservation e r (Some c) (Some d) = (tm ++ evs, Ok r')
       /\ Ignored r' = Ignored r
       /\ Mismatched r' = Mismatched r ++ [Some d]
       /\ Errors r' = Errors r ++ compareErrors e merr.
Proof.
  intros Hm Hnot Hall evs.
  assert (Hi : ignoring e (Some c) (Some d) = (evs, Ok (false, None))).
  { unfold ignoring. by apply ignoringFrom_all_decline. }
  split; [exact Hi|].
  rewrite (processObservation_unfold e r c d _ _ _ _ _ _ Hm Hi), Hnot.
  eexists; split; [reflexivity|]. cbn. by rewrite !app_nil_r.
Qed.

(** ** The two modes *)

Lemma arrivalErrors_no_timeout e (ms : list (string * bool)) :
  timeout e = None -> arrivalErrors e ms = [].
Proof.
  intros Hnone. unfold arrivalErrors. apply bind_nil. intros a _.
  unfold took, createContext. by rewrite Hnone.
Qed.

(** Without a timeout, a concurrent run gives what a sequential run gives
    when [range] yields the behaviors in the order in which the concurrent
    results arrive: the same callbacks are invoked in the same order and the
    same [Result] is returned. *)
Theorem concurrent_without_timeout_is_sequential e name w :
  is_Some (behaviors e !! name) -> wfSchedule e w ->
  Run (withMode true None e) name w
  = Run (withMode false None e) name (rangeAsArrival w).
Proof.
  intros Hreg [Hrange Harr].
  rewrite (Run_closed (withMode true None e) name w Hreg (conj Hrange Harr)).
  rewrite (Run_closed (withMode false None e) name (rangeAsArrival w) Hreg (conj Harr Harr)).
  assert (Hslot : forall n, slot (withMode true None e) w n
                            = slot (withMode false None e) (rangeAsArrival w) n).
  { intros n. rewrite !slot_observed by (by right). reflexivity. }
  assert (Hnames : candidateNames (withMode true None e) name w
                   = candidateNames (withMode false None e) name (rangeAsArrival w))
    by reflexivity.
  assert (Hcands : slot (withMode true None e) w <$> candidateNames (withMode true None e) name w
                   = slot (withMode false None e) (rangeAsArrival w)
                       <$> candidateNames (withMode false None e) name (rangeAsArrival w)).
  { rewrite Hnames. apply list_fmap_ext. intros i n _. apply Hslot. }
  assert (Hpub : published (withMode true None e) name w
                 = published (withMode false None e) name (rangeAsArrival w)).
  { unfold published. rewrite Hcands, Hslot. unfold timeoutErrors. cbn [runConcurrently withMode].
    rewrite arrivalErrors_no_timeout by done. reflexivity. }
  assert (Hret : returned (withMode true None e) name w
                 = returned (withMode false None e) name (rangeAsArrival w)).
  { unfold returned. rewrite Hpub. reflexivity. }
  unfold runTrace. rewrite Hcands, Hslot, Hpub, Hret. reflexivity.
Qed.

(** ** Counting timeouts *)

(** The number of "timeout" operation errors in the returned [Result] is the
    number of behaviors, control included, whose context expired; in
    sequential mode and without a timeout there is none. *)
Theorem timeout_errors_count e name w :
  is_Some (behaviors e !! name) -> wfSchedule e w ->
  exists t r, Run e name w = (t, Ok r)
    /\ length (filter (fun x => Operation x = "timeout") (Errors r))
       = length (filter (fun n => runConcurrently e && expired e w n = true) (keys e)).
Proof.
  intros Hreg Hwf. rewrite (Run_closed e name w Hreg Hwf).
  eexists _, _. split; [reflexivity|].
  assert (Hnd : NoDup ((arrival w).*1)) by (rewrite (proj2 Hwf); apply keys_NoDup).
  assert (Hnone : forall l : list ResultError,
            Forall (fun x => Operation x ≠ "timeout") l ->
            filter (fun x => Operation x = "timeout") l = []).
  { intros l Hl. induction Hl as [|x l Hx Hl IH]; [done|].
    by rewrite filter_cons_False. }
  assert (Hall : forall l : list ResultError,
            Forall (fun x => Operation x = "timeout") l ->
            filter (fun x => Operation x = "timeout") l = l).
  { intros l Hl. induction Hl as [|x l Hx Hl IH]; [done|].
    rewrite filter_cons_True by done. by rewrite IH. }
  rewrite returned_Errors, !filter_app, !length_app.
  rewrite (Hnone (beforeErrors e)), (Hnone (Errors _)), (Hnone (match publisher e _ with
                                                                 | Some _ => _ | None => _ end)).
  2: { destruct (publisher e (published e name w)); by repeat constructor. }
  2: { eapply Forall_impl; [apply classifyAll_operations|]. by intros x [_ [-> | ->]]. }
  2: { eapply Forall_impl; [apply beforeErrors_operations|]. by intros x [_ ->]. }
  rewrite Hall by (eapply Forall_impl; [apply timeoutErrors_operations|]; by intros x [_ ?]).
  cbn [length]. rewrite Nat.add_0_r.
  unfold timeoutErrors. destruct (runConcurrently e) eqn:Hconc; cbn [andb].
  - rewrite <- (proj2 Hwf).
    assert (Hgen : forall ms : list (string * bool),
              (forall a, a ∈ ms -> a ∈ arrival w) ->
              length (arrivalErrors e ms)
              = length (filter (fun n => expired e w n = true) (ms.*1))).
    { induction ms as [|a ms IH]; [done|]. intros Hsub.
      unfold arrivalErrors in *. cbn [mbind list_bind fmap list_fmap].
      rewrite length_app, IH
        by (intros a' Ha'; apply Hsub; by apply list_elem_of_further).
      rewrite (took_expired e w a Hnd) by (apply Hsub; apply list_elem_of_here).
      destruct (expired e w a.1) eqn:Hexp.
      - rewrite filter_cons_True by done. reflexivity.
      - rewrite filter_cons_False by (by rewrite Hexp). reflexivity. }
    by apply Hgen.
  - symmetry. apply length_zero_iff_nil. induction (keys e) as [|k ks IH]; [done|].
    by rewrite filter_cons_False.
Qed.

(** * The earlier [Run] *)

Lemma legacy_mismatching_eq e c d :
  Legacy.mismatching e c d
  = ([EvCompare (Value c) (Value d)],
     Ok (negb (comparator e (Value c) (Value d)).1, (comparator e (Value c) (Value d)).2)).
Proof.
  unfold Legacy.mismatching. rewrite bind_emit.
  by destruct (comparator e (Value c) (Value d)).
Qed.

(** The earlier [ignoring] decides like the later one and also reports
    where it stopped. *)
Lemma legacy_ignoringFrom_index preds idx c d :
  exists t ib i ierr,
    Legacy.ignoringFrom idx preds c d = (t, Ok (ib, i, ierr))
    /\ ignoringFrom idx preds (Some c) (Some d) = (t, Ok (ib, ierr))
    /\ ((i = (-1)%Z /\ ib = false /\ ierr = None
         /\ Forall (fun q => q (Value c) (Value d) = (false, None)) preds
         /\ t = map (fun k => EvIgnore k (Value c) (Value d)) (seq idx (length preds)))
        \/ (exists k q, i = Z.of_nat (idx + k) /\ preds !! k = Some q
              /\ Forall (fun q => q (Value c) (Value d) = (false, None)) (take k preds)
              /\ t = map (fun k => EvIgnore k (Value c) (Value d)) (seq idx (S k))
              /\ ((q (Value c) (Value d) = (true, None) /\ ib = true /\ ierr = None)
                  \/ exists b x, q (Value c) (Value d) = (b, Some x)
                                 /\ ib = false /\ ierr = Some x))).
Proof.
  revert idx. induction preds as [|p preds IH]; intros idx.
  - exists [], false, (-1)%Z, None. split; [done|]. split; [done|]. left. by repeat split.
  - cbn [Legacy.ignoringFrom ignoringFrom deref]. rewrite !bind_ret, !bind_emit.
    destruct (p (Value c) (Value d)) as [ok [x|]] eqn:Hp; cbn [fst snd].
    + eexists _, _, _, _. split; [reflexivity|]. split; [reflexivity|].
      right. exists 0, p. rewrite Nat.add_0_r. repeat split; try done.
      right. by exists ok, x.
    + destruct ok; cbn [fst snd].
      * eexists _, _, _, _. split; [reflexivity|]. split; [reflexivity|].
        right. exists 0, p. rewrite Nat.add_0_r. repeat split; try done. by left.
      * destruct (IH (S idx)) as (t & ib & i & ierr & -> & -> & Hcases).
        eexists _, _, _, _. split; [reflexivity|]. split; [reflexivity|].
        destruct Hcases as [(-> & -> & -> & Hall & ->)|(k & q & -> & Hq & Hall & -> & Hres)].
        -- left. repeat split; try done. by constructor.
        -- right. exists (S k), q. rewrite Nat.add_succ_r. repeat split; try done.
           cbn. by constructor.
Qed.

(** The index returned by the earlier [ignoring] is [-1] when every
    predicate declined, and otherwise the position of the predicate that
    accepted the pair or failed on it; the predicates up to that position
    were invoked, in order, and no other. *)
Theorem legacy_ignoring_index e c d :
  exists t ib i ierr,
    Legacy.ignoring e c d = (t, Ok (ib, i, ierr))
    /\ ((i = (-1)%Z /\ ib = false /\ ierr = None
         /\ Forall (fun q => q (Value c) (Value d) = (false, None)) (ignores e)
         /\ t = map (fun k => EvIgnore k (Value c) (Value d)) (seq 0 (length (ignores e))))
        \/ (exists k q, i = Z.of_nat k /\ ignores e !! k = Some q
              /\ Forall (fun q => q (Value c) (Value d) = (false, None)) (take k (ignores e))
              /\ t = map (fun k => EvIgnore k (Value c) (Value d)) (seq 0 (S k))
              /\ ((q (Value c) (Value d) = (true, None) /\ ib = true /\ ierr = None)
                  \/ exists b x, q (Value c) (Value d) = (b, Some x)
                                 /\ ib = false /\ ierr = Some x))).
Proof.
  destruct (legacy_ignoringFrom_index (ignores e) 0 c d)
    as (t & ib & i & ierr & Hl & _ & Hcases).
  exists t, ib, i, ierr. split; [exact Hl|exact Hcases].
Qed.

Lemma legacy_classifyCandidate_unfold e (r : Legacy.Result V) n c b merr ti ib i ierr :
  comparator e (Value (Legacy.Control r)) (Value c) = (b, merr) ->
  Legacy.ignoring e (Legacy.Control r) c = (ti, Ok (ib, i, ierr)) ->
  Legacy.classifyCandidate e r n c
  = if match merr with Some _ => false | None => b end
    then ([EvCompare (Value (Legacy.Control r)) (Value c)], Ok r)
    else (EvCompare (Value (Legacy.Control r)) (Value c) :: ti,
          Ok {| Legacy.Control := Legacy.Control r;
                Legacy.Candidates := Legacy.Candidates r;
                Legacy.Ignored := Legacy.Ignored r ++
                  (if match ierr with Some _ => false | None => ib end then [c] else []);
                Legacy.Mismatched := Legacy.Mismatched r ++
                  (if match ierr with Some _ => false | None => ib end then [] else [c]);
                Legacy.Errors := Legacy.Errors r
                  ++ match merr with
                     | Some x => [{| Legacy.Operation := "compare"; Legacy.BehaviorName := n;
                                     Legacy.Index := (-1)%Z; Legacy.Err := x |}]
                     | None => []
                     end
                  ++ match ierr with
                     | Some x => [{| Legacy.Operation := "ignore"; Legacy.BehaviorName := n;
                                     Legacy.Index := i; Legacy.Err := x |}]
                     | None => []
                     end |}).
Proof.
  intros Hcmp Hi. unfold Legacy.classifyCandidate.
  rewrite legacy_mismatching_eq, bind_Ok, Hcmp. cbn [fst snd].
  destruct r as [rc rca ri rm re]. cbn [Legacy.Control] in *.
  destruct merr as [x|]; [|destruct b]; cbn -[Legacy.ignoring].
  2: { reflexivity. }
  all: rewrite Hi; cbn; destruct ierr as [y|]; [|destruct ib]; cbn;
    rewrite ?app_nil_r, <- ?app_assoc; reflexivity.
Qed.

Lemma legacy_classifyCandidate_frame e (r : Legacy.Result V) n c :
  Legacy.classifyCandidate e r n c
  = ((Legacy.classify e (Legacy.Control r) n c).1,
     Ok {| Legacy.Control := Legacy.Control r;
           Legacy.Candidates := Legacy.Candidates r;
           Legacy.Ignored := Legacy.Ignored r
             ++ Legacy.Ignored (Legacy.classify e (Legacy.Control r) n c).2;
           Legacy.Mismatched := Legacy.Mismatched r
             ++ Legacy.Mismatched (Legacy.classify e (Legacy.Control r) n c).2;
           Legacy.Errors := Legacy.Errors r
             ++ Legacy.Errors (Legacy.classify e (Legacy.Control r) n c).2 |}).
Proof.
  destruct (comparator e (Value (Legacy.Control r)) (Value c)) as [b merr] eqn:Hcmp.
  destruct (legacy_ignoringFrom_index (ignores e) 0 (Legacy.Control r) c)
    as (ti & ib & i & ierr & Hi & _).
  unfold Legacy.classify.
  rewrite (legacy_classifyCandidate_unfold e r n c _ _ _ _ _ _ Hcmp Hi).
  rewrite (legacy_classifyCandidate_unfold e (Legacy.initial (Legacy.Control r)) n c
             _ _ _ _ _ _ Hcmp Hi).
  destruct r as [rc rca ri rm re].
  destruct (match merr with Some _ => false | None => b end); cbn.
  - by rewrite !app_nil_r.
  - reflexivity.
Qed.

Lemma legacy_store_next (pre : list (Observation V)) k x :
  Legacy.store (pre ++ replicate (S k) Legacy.zeroObservation) (length pre) x
  = ([], Ok ((pre ++ [x]) ++ replicate k Legacy.zeroObservation)).
Proof.
  unfold Legacy.store.
  rewrite decide_True by (rewrite length_app, length_replicate; lia).
  rewrite insert_app_r_alt, Nat.sub_diag by lia. cbn. by rewrite <- app_assoc.
Qed.

Lemma legacyLoop e l :
  forall (r : Legacy.Result V) pre k,
    Legacy.Candidates r = pre ++ replicate k Legacy.zeroObservation ->
    length (filter (fun n => n ≠ controlBehavior) l) <= k ->
    forEach (Legacy.runBody e) (r, length pre) l
    = let names := filter (fun n => n ≠ controlBehavior) l in
      (names ≫= (fun n => (Legacy.classify e (Legacy.Control r) n (observed e n)).1),
       Ok ({| Legacy.Control := Legacy.Control r;
              Legacy.Candidates :=
                pre ++ (observed e <$> names)
                    ++ replicate (k - length names) Legacy.zeroObservation;
              Legacy.Ignored := Legacy.Ignored r
                ++ (names ≫= (fun n => Legacy.Ignored
                                         (Legacy.classify e (Legacy.Control r) n (observed e n)).2));
              Legacy.Mismatched := Legacy.Mismatched r
                ++ (names ≫= (fun n => Legacy.Mismatched
                                         (Legacy.classify e (Legacy.Control r) n (observed e n)).2));
              Legacy.Errors := Legacy.Errors r
                ++ (names ≫= (fun n => Legacy.Errors
                                         (Legacy.classify e (Legacy.Control r) n (observed e n)).2)) |},
           length pre + length names)).
Proof.
  induction l as [|bname l IH]; intros r pre k Hcands Hk.
  - destruct r as [rc rca ri rm re]. cbn in *. subst.
    rewrite Nat.sub_0_r, !app_nil_r, Nat.add_0_r. reflexivity.
  - cbn [forEach Legacy.runBody].
    destruct (String.eqb_spec bname controlBehavior) as [->|Hne].
    + rewrite bind_ret. rewrite filter_cons_False in * by (intros ?; done).
      by apply IH.
    + rewrite filter_cons_True in * by done.
      cbn [length] in Hk. destruct k as [|k]; [lia|].
      destruct r as [rc rca ri rm re].
      cbn [Legacy.Control Legacy.Candidates Legacy.Ignored Legacy.Mismatched Legacy.Errors] in *.
      subst rca.
      rewrite legacy_store_next, bind_Ok. cbn [fst snd app Legacy.setCandidates
        Legacy.Control Legacy.Candidates Legacy.Ignored Legacy.Mismatched Legacy.Errors].
      rewrite legacy_classifyCandidate_frame, bind_Ok. cbn [fst snd mret M_ret].
      rewrite bind_Ok.
      replace (length pre + 1) with (length (pre ++ [observed e bname]))
        by (rewrite length_app; reflexivity).
      unfold observed in *.
      rewrite (IH _ _ k) by (cbn; done || lia).
      cbn [fst snd Legacy.Control Legacy.Candidates Legacy.Ignored Legacy.Mismatched
           Legacy.Errors fmap list_fmap mbind list_bind length app Nat.sub].
      rewrite <- ?app_assoc, ?app_nil_r, ?length_app. cbn [app length].
      rewrite <- ?Nat.add_assoc. cbn [Nat.add]. reflexivity.
Qed.

Lemma legacy_make_pred n :
  Legacy.make (V:=V) (Z.of_nat (S n) - 1) = ([], Ok (replicate n Legacy.zeroObservation)).
Proof.
  unfold Legacy.make. destruct (Z.ltb_spec (Z.of_nat (S n) - 1) 0); [lia|].
  by replace (Z.to_nat (Z.of_nat (S n) - 1)) with n by lia.
Qed.

Lemma legacy_Run_closed e w :
  is_Some (behaviors e !! controlBehavior) -> rangeOrder w ≡ₚ keys e ->
  Legacy.Run e w = (Legacy.runTrace e w, Ok (Legacy.returned e w)).
Proof.
  intros Hreg Hrange.
  pose proof (candidates_count e controlBehavior _ Hreg Hrange) as Hn.
  unfold Legacy.Run. cbn zeta. rewrite <- Hn, legacy_make_pred, bind_Ok. cbn [fst snd].
  rewrite (legacyLoop e (rangeOrder w) _ []
             (length (filter (fun n => n ≠ controlBehavior) (rangeOrder w))))
    by (cbn; done || lia).
  cbn zeta. rewrite bind_Ok. cbn [fst snd mret M_ret app Legacy.Control
    Legacy.Ignored Legacy.Mismatched Legacy.Errors].
  rewrite Nat.sub_diag. cbn [replicate]. rewrite !app_nil_r.
  reflexivity.
Qed.

Lemma bind_fmap_ext {A B C : Type} (f : A -> B) (g : B -> list C) (h : A -> list C)
    (l : list A) :
  (forall x, x ∈ l -> g (f x) = h x) -> (f <$> l) ≫= g = l ≫= h.
Proof.
  induction l as [|x l IH]; [done|]. intros Hgh. cbn.
  rewrite (Hgh x) by apply list_elem_of_here. f_equal. apply IH.
  intros y Hy. apply Hgh. by apply list_elem_of_further.
Qed.

Lemma fmap_bind_ext {A B C : Type} (f : B -> C) (g : A -> list B) (h : A -> list C)
    (l : list A) :
  (forall x, x ∈ l -> f <$> g x = h x) -> f <$> (l ≫= g) = l ≫= h.
Proof.
  induction l as [|x l IH]; [done|]. intros Hgh. cbn.
  rewrite fmap_app, (Hgh x) by apply list_elem_of_here. f_equal. apply IH.
  intros y Hy. apply Hgh. by apply list_elem_of_further.
Qed.

Lemma filter_none {A : Type} (P : A -> Prop) `{forall x, Decision (P x)} (l : list A) :
  Forall (fun x => ~ P x) l -> filter P l = [].
Proof.
  induction 1 as [|x l Hx Hl IH]; [done|]. by rewrite filter_cons_False.
Qed.

Lemma filter_all {A : Type} (P : A -> Prop) `{forall x, Decision (P x)} (l : list A) :
  Forall P l -> filter P l = l.
Proof.
  induction 1 as [|x l Hx Hl IH]; [done|]. rewrite filter_cons_True by done. by rewrite IH.
Qed.

(** On a pair of observations that carry no error, the earlier and the
    later classification do the same. *)
Lemma legacy_classify_agrees e c d n :
  Err c = None -> Err d = None ->
  (classify e c d).1 = (Legacy.classify e c n d).1
  /\ Ignored (classify e c d).2 = Some <$> Legacy.Ignored (Legacy.classify e c n d).2
  /\ Mismatched (classify e c d).2 = Some <$> Legacy.Mismatched (Legacy.classify e c n d).2
  /\ (fun x => (Operation x, Cause x)) <$> Errors (classify e c d).2
     = (fun x => (Legacy.Operation x, Legacy.Err x))
         <$> Legacy.Errors (Legacy.classify e c n d).2.
Proof.
  intros Hc Hd.
  destruct (comparator e (Value c) (Value d)) as [b merr] eqn:Hcmp.
  destruct (legacy_ignoringFrom_index (ignores e) 0 c d)
    as (ti & ib & i & ierr & Hli & Hi & _).
  pose proof (matching_neither e c d Hc Hd) as Hm. rewrite Hcmp in Hm.
  rewrite (classify_unfold e c d _ _ _ _ _ _ Hm Hi).
  unfold Legacy.classify.
  rewrite (legacy_classifyCandidate_unfold e (Legacy.initial c) n d _ _ _ _ _ _ Hcmp Hli).
  destruct (match merr with Some _ => false | None => b end); cbn; [done|].
  repeat split.
  - by destruct (match ierr with Some _ => false | None => ib end).
  - by destruct (match ierr with Some _ => false | None => ib end).
  - by destruct merr, ierr.
Qed.

(** The earlier [Run] and the later one, run sequentially, classify alike
    when no behavior returns an error: they hold the same control and the
    same candidates, put the same candidates in [Ignored] and [Mismatched],
    invoke the comparator and the ignore predicates on the same values in
    the same order, and record the same "compare" and "ignore" errors. *)
Theorem legacy_agrees_without_errors e w :
  is_Some (behaviors e !! controlBehavior) -> wfSchedule e w ->
  runConcurrently e = false ->
  (forall k b, behaviors e !! k = Some b -> exists f, b = Some f /\ (f tt).2 = None) ->
  exists tl rl t r,
    Legacy.Run e w = (tl, Ok rl) /\ Run e controlBehavior w = (t, Ok r)
    /\ Control r = Some (Legacy.Control rl)
    /\ Candidates r = Some <$> Legacy.Candidates rl
    /\ Ignored r = Some <$> Legacy.Ignored rl
    /\ Mismatched r = Some <$> Legacy.Mismatched rl
    /\ (exists rp rest, t = EvBeforeRun :: tl ++ EvPublish rp :: rest)
    /\ (fun x => (Operation x, Cause x))
         <$> filter (fun x => Operation x = "compare" \/ Operation x = "ignore") (Errors r)
       = (fun x => (Legacy.Operation x, Legacy.Err x)) <$> Legacy.Errors rl.
Proof.
  intros Hreg Hwf Hseq Hquiet.
  rewrite (legacy_Run_closed e w Hreg (proj1 Hwf)), (Run_closed e controlBehavior w Hreg Hwf).
  eexists _, _, _, _. split; [reflexivity|]. split; [reflexivity|].
  destruct (returned_fields e controlBehavior w) as (Hc & Hcands & _ & Hign & Hmis).
  assert (Hslot : forall n, slot e w n = observed e n)
    by (intros n; apply slot_observed; by left).
  assert (Hnames : candidateNames e controlBehavior w = Legacy.candidateNames w).
  { unfold candidateNames, Legacy.candidateNames. by rewrite Hseq. }
  assert (Hnoerr : forall n, is_Some (behaviors e !! n) -> Err (observed e n) = None).
  { intros n [b Hb]. destruct (Hquiet n b Hb) as (f & -> & Hf).
    by destruct (observed_registered e n f Hb) as [_ ->]. }
  assert (Hagree : forall n, n ∈ Legacy.candidateNames w ->
            (classify e (observed e controlBehavior) (observed e n)).1
            = (Legacy.classify e (observed e controlBehavior) n (observed e n)).1
            /\ Ignored (classify e (observed e controlBehavior) (observed e n)).2
               = Some <$> Legacy.Ignored
                            (Legacy.classify e (observed e controlBehavior) n (observed e n)).2
            /\ Mismatched (classify e (observed e controlBehavior) (observed e n)).2
               = Some <$> Legacy.Mismatched
                            (Legacy.classify e (observed e controlBehavior) n (observed e n)).2
            /\ (fun x => (Operation x, Cause x))
                 <$> Errors (classify e (observed e controlBehavior) (observed e n)).2
               = (fun x => (Legacy.Operation x, Legacy.Err x))
                   <$> Legacy.Errors
                         (Legacy.classify e (observed e controlBehavior) n (observed e n)).2).
  { intros n Hn. apply legacy_classify_agrees; apply Hnoerr; [done|].
    rewrite <- Hnames in Hn.
    by destruct (candidateNames_registered e controlBehavior w n Hwf Hn). }
  assert (Hcs : slot e w <$> candidateNames e controlBehavior w
                = observed e <$> Legacy.candidateNames w).
  { rewrite Hnames. apply list_fmap_ext. intros i n _. apply Hslot. }
  split; [by rewrite Hc, Hslot|]. split; [by rewrite Hcands, Hcs|].
  split; [|split; [|split]].
  - rewrite Hign.
    change (Ignored (published e controlBehavior w))
      with ((slot e w <$> candidateNames e controlBehavior w)
              ≫= (fun d => Ignored (classify e (slot e w controlBehavior) d).2)).
    rewrite Hcs, Hslot. cbn [Legacy.Ignored Legacy.returned].
    symmetry. rewrite (bind_fmap_ext _ _
      (fun n => Ignored (classify e (observed e controlBehavior) (observed e n)).2))
      by done.
    apply fmap_bind_ext. intros n Hn. symmetry. by apply Hagree.
  - rewrite Hmis.
    change (Mismatched (published e controlBehavior w))
      with ((slot e w <$> candidateNames e controlBehavior w)
              ≫= (fun d => Mismatched (classify e (slot e w controlBehavior) d).2)).
    rewrite Hcs, Hslot. cbn [Legacy.Mismatched Legacy.returned].
    symmetry. rewrite (bind_fmap_ext _ _
      (fun n => Mismatched (classify e (observed e controlBehavior) (observed e n)).2))
      by done.
    apply fmap_bind_ext. intros n Hn. symmetry. by apply Hagree.
  - eexists _, _. unfold runTrace. do 2 f_equal.
    cbn [classifyAll fst]. rewrite Hcs, Hslot. unfold Legacy.runTrace.
    rewrite (bind_fmap_ext _ _
      (fun n => (classify e (observed e controlBehavior) (observed e n)).1)) by done.
    clear -Hagree. induction (Legacy.candidateNames w) as [|n ns IH]; [done|].
    cbn. rewrite (proj1 (Hagree n (list_elem_of_here _ _))). f_equal.
    apply IH. intros n' Hn'. apply Hagree. by apply list_elem_of_further.
  - rewrite returned_Errors, !filter_app.
    rewrite (filter_none _ (beforeErrors e)), (filter_none _ (timeoutErrors e w)).
    2: { eapply Forall_impl; [apply timeoutErrors_operations|].
         intros x [_ ->] [|]; done. }
    2: { eapply Forall_impl; [apply beforeErrors_operations|].
         intros x [_ ->] [|]; done. }
    rewrite (filter_all _ (Errors _))
      by (eapply Forall_impl; [apply classifyAll_operations|]; by intros x [_ ?]).
    rewrite (filter_none _ (match publisher e _ with Some _ => _ | None => _ end)).
    2: { destruct (publisher e (published e controlBehavior w)); repeat constructor.
         intros [|]; done. }
    cbn [app]. rewrite app_nil_r.
    cbn [classifyAll snd Errors]. rewrite Hcs, Hslot. cbn [Legacy.Errors Legacy.returned].
    rewrite (bind_fmap_ext _ _
      (fun n => Errors (classify e (observed e controlBehavior) (observed e n)).2)) by done.
    clear -Hagree. induction (Legacy.candidateNames w) as [|n ns IH]; [done|].
    cbn. rewrite !fmap_app.
    rewrite (proj2 (proj2 (proj2 (Hagree n (list_elem_of_here _ _))))). f_equal.
    apply IH. intros n' Hn'. apply Hagree. by apply list_elem_of_further.
Qed.

(** Every operation error of the earlier [Run] names a registered candidate
    and locates the failure: a "compare" error has the index [-1] and holds
    the error the comparator returned for that candidate; an "ignore" error
    has the position of an ignore predicate, and holds the error this
    predicate returned for that candidate. *)
Theorem legacy_errors_locate_failure e w :
  is_Some (behaviors e !! controlBehavior) -> rangeOrder w ≡ₚ keys e ->
  exists t (rl : Legacy.Result V), Legacy.Run e w = (t, Ok rl)
    /\ Legacy.Control rl = observed e controlBehavior
    /\ Legacy.Candidates rl
       = observed e <$> filter (fun n => n ≠ controlBehavior) (rangeOrder w)
    /\ forall x, x ∈ Legacy.Errors rl ->
         Legacy.BehaviorName x ≠ controlBehavior
         /\ is_Some (behaviors e !! Legacy.BehaviorName x)
         /\ ((Legacy.Operation x = "compare" /\ Legacy.Index x = (-1)%Z
              /\ (comparator e (Value (Legacy.Control rl))
                    (Value (observed e (Legacy.BehaviorName x)))).2
                 = Some (Legacy.Err x))
             \/ (Legacy.Operation x = "ignore"
                 /\ exists k q b,
                      Legacy.Index x = Z.of_nat k /\ ignores e !! k = Some q
                      /\ q (Value (Legacy.Control rl))
                           (Value (observed e (Legacy.BehaviorName x)))
                         = (b, Some (Legacy.Err x)))).
Proof.
  intros Hreg Hrange. rewrite (legacy_Run_closed e w Hreg Hrange).
  eexists _, _. split; [reflexivity|]. split; [reflexivity|]. split; [reflexivity|].
  intros x. cbn [Legacy.Errors Legacy.returned Legacy.Control].
  intros (n & Hx & Hn)%list_elem_of_bind.
  apply list_elem_of_filter in Hn as [Hne Hn].
  assert (Hnreg : is_Some (behaviors e !! n)) by (apply keys_elem_of; by rewrite <- Hrange).
  destruct (comparator e (Value (observed e controlBehavior)) (Value (observed e n)))
    as [b merr] eqn:Hcmp.
  destruct (legacy_ignoringFrom_index (ignores e) 0 (observed e controlBehavior) (observed e n))
    as (ti & ib & i & ierr & Hli & _ & Hcases).
  unfold Legacy.classify in Hx.
  rewrite (legacy_classifyCandidate_unfold e (Legacy.initial (observed e controlBehavior))
             n (observed e n) _ _ _ _ _ _ Hcmp Hli) in Hx.
  destruct (match merr with Some _ => false | None => b end);
    cbn in Hx; [by apply elem_of_nil in Hx|].
  apply elem_of_app in Hx as [Hx|Hx].
  - destruct merr as [y|]; [|by apply elem_of_nil in Hx].
    apply list_elem_of_singleton in Hx. subst x. cbn.
    repeat split; try done. left. by rewrite Hcmp.
  - destruct ierr as [y|]; [|by apply elem_of_nil in Hx].
    apply list_elem_of_singleton in Hx. subst x. cbn.
    repeat split; try done. right. split; [done|].
    destruct Hcases as [(_ & _ & [=] & _)|(k & q & -> & Hq & _ & _ & Hres)].
    destruct Hres as [(_ & _ & [=])|(b' & y' & Hqv & _ & [= ->])].
    by exists k, q, b'.
Qed.

(** ** What the publisher is handed *)

(** The [Result] handed to the publisher is the finished one: it has the
    control, the observations, the candidates and the [Ignored] and
    [Mismatched] lists of the [Result] that [Run] returns, and its [Errors]
    are those of the returned [Result] up to the publisher's own error. *)
Theorem publisher_sees_finished_result e name w :
  is_Some (behaviors e !! name) -> wfSchedule e w ->
  exists t1 rp t2 r, Run e name w = (t1 ++ EvPublish rp :: t2, Ok r)
    /\ Control rp = Control r /\ Observations rp = Observations r
    /\ Candidates rp = Candidates r
    /\ Ignored rp = Ignored r /\ Mismatched rp = Mismatched r
    /\ Errors rp `prefix_of` Errors r
    /\ length (Errors r) <= S (length (Errors rp)).
Proof.
  intros Hreg Hwf. rewrite (Run_closed e name w Hreg Hwf).
  exists (EvBeforeRun
            :: (classifyAll e (slot e w name) (slot e w <$> candidateNames e name w)).1),
         (published e name w),
         (match Errors (returned e name w) with
          | [] => []
          | _ :: _ => [EvReportErrors (Errors (returned e name w))]
          end),
         (returned e name w).
  split; [reflexivity|]. unfold returned.
  destruct (publisher e (published e name w)); cbn.
  - repeat split; try done; [by eexists|]. rewrite length_app. cbn. lia.
  - repeat split; try done. lia.
Qed.

(** ** How often the comparator is invoked *)

Lemma ignoring_not_compare e c d ti o :
  ignoring e (Some c) (Some d) = (ti, o) ->
  filter (fun ev => isCompare ev = true) ti = [].
Proof.
  intros Hi. apply filter_none, Forall_forall. intros ev Hev.
  destruct (ignoringFrom_events (ignores e) 0 c d ev) as [k ->]; [|done].
  unfold ignoring in Hi. by rewrite Hi.
Qed.

Lemma classify_compares e c d :
  filter (fun ev => isCompare ev = true) (classify e c d).1
  = if carriesError c || carriesError d then []
    else [EvCompare (Value c) (Value d)].
Proof.
  destruct (ignoring_total e c d) as (ti & ib & ierr & Hi & _).
  pose proof (ignoring_not_compare e c d ti _ Hi) as Hti.
  unfold carriesError.
  destruct (Err c) as [x|] eqn:Hc, (Err d) as [y|] eqn:Hd; cbn [orb].
  - rewrite (classify_unfold e c d _ _ _ _ _ _ (matching_both e c d x y Hc Hd) Hi).
    destruct (String.eqb (Error x) (Error y)); cbn [fst app]; done.
  - assert (Hm : matching e (Some c) (Some d) = ([], Ok (false, None))).
    { apply matching_one. right. split; [by eexists|done]. }
    by rewrite (classify_unfold e c d _ _ _ _ _ _ Hm Hi).
  - assert (Hm : matching e (Some c) (Some d) = ([], Ok (false, None))).
    { apply matching_one. left. split; [done|by eexists]. }
    by rewrite (classify_unfold e c d _ _ _ _ _ _ Hm Hi).
  - pose proof (matching_neither e c d Hc Hd) as Hm.
    destruct (comparator e (Value c) (Value d)) as [b merr].
    rewrite (classify_unfold e c d _ _ _ _ _ _ Hm Hi).
    destruct (match merr with Some _ => false | None => b end); cbn [fst]; [done|].
    rewrite filter_app, Hti. done.
Qed.

(** The comparator is invoked once for every candidate such that neither it
    nor the control carries an error, in the order of [Candidates], on the
    control's value and the candidate's; it is not invoked for any other
    candidate. *)
Theorem comparator_called_once_per_error_free_pair e name w :
  is_Some (behaviors e !! name) -> wfSchedule e w ->
  exists t r ctl cands, Run e name w = (t, Ok r)
    /\ Control r = Some ctl /\ Candidates r = Some <$> cands
    /\ filter (fun ev => isCompare ev = true) t
       = (fun d => EvCompare (Value ctl) (Value d))
           <$> filter (fun d => carriesError ctl || carriesError d = false) cands.
Proof.
  intros Hreg Hwf. rewrite (Run_closed e name w Hreg Hwf).
  exists (runTrace e name w), (returned e name w), (slot e w name),
         (slot e w <$> candidateNames e name w).
  destruct (returned_fields e name w) as (Hc & Hcands & _).
  split; [reflexivity|]. split; [exact Hc|]. split; [exact Hcands|].
  unfold runTrace. rewrite filter_cons_False by done.
  rewrite filter_app, filter_cons_False by done.
  rewrite (filter_none _ (match Errors (returned e name w) with [] => _ | _ :: _ => _ end))
    by (destruct (Errors (returned e name w)); by repeat constructor).
  rewrite app_nil_r. cbn [classifyAll fst].
  generalize (slot e w <$> candidateNames e name w). intros ds.
  induction ds as [|d ds IH]; [done|].
  cbn [mbind list_bind]. rewrite filter_app, classify_compares, IH.
  destruct (carriesError (slot e w name) || carriesError d) eqn:Hce.
  - rewrite filter_cons_False by (by rewrite Hce). done.
  - rewrite filter_cons_True by done. done.
Qed.

(** ** A missing control, in the earlier [Run] *)




End Properties.

(** * The properties on sample runs *)


Lemma matching_cases_witness :
  matching threeWay (Some one) (Some two)
  = ([EvCompare (Some 1%Z) (Some 2%Z)], Ok (false, None))
  /\ (exists b, matching threeWay (Some okError) (Some okCustom) = ([], Ok (b, None))
                /\ (b = true <-> Error (errorString "ok") = Error (customError 7 "ok")))
  /\ matching threeWay (Some one) (Some okCustom) = ([], Ok (false, None)).
Proof.
  split; [|split].
  - apply (proj1 (matching_cases Z threeWay one two)); reflexivity.
  - apply (proj1 (proj2 (matching_cases Z threeWay okError okCustom))); reflexivity.
  - apply (proj2 (proj2 (matching_cases Z threeWay one okCustom))).
    left. split; [reflexivity|]. eexists; reflexivity.
Defined.

(** C3.  The candidates of [threeWay] are registered [a] then [b].  When the
    result of [b] arrives first, [Candidates] lists [b] before [a]; and in
    sequential mode, when [range] yields [b] first, it does so too.  Neither
    run lists the candidates in registration order. *)
Lemma candidates_not_in_registration_order :
  threeWayRegistration = ["control"; "a"; "b"]
  /\ wfSchedule threeWay bFirst
  /\ (exists t r, Run threeWay "control" bFirst = (t, Ok r)
        /\ slotNames (Candidates r) = [Some "b"; Some "a"]
        /\ ~ registrationOrdered threeWayRegistration "control" r)
  /\ wfSchedule threeWaySequential bFirst
  /\ (exists t r, Run threeWaySequential "control" bFirst = (t, Ok r)
        /\ slotNames (Candidates r) = [Some "b"; Some "a"]
        /\ ~ registrationOrdered threeWayRegistration "control" r).
Proof.
  split; [reflexivity|]. split; [scheduled|]. split; [|split; [scheduled|]].
  - eexists _, _. split; [vm_compute; reflexivity|].
    split; [reflexivity|]. unfold registrationOrdered. vm_compute. discriminate.
  - eexists _, _. split; [vm_compute; reflexivity|].
    split; [reflexivity|]. unfold registrationOrdered. vm_compute. discriminate.
Qed.

Lemma candidates_in_schedule_order_witness :
  exists t r, Run threeWay "control" bFirst = (t, Ok r)
    /\ S (length (Candidates r)) = size (behaviors threeWay)
    /\ Candidates r
       = (fun n => Some (slot threeWay bFirst n))
           <$> filter (fun n => n ≠ "control")
                      (if runConcurrently threeWay
                       then (arrival bFirst).*1 else rangeOrder bFirst)
    /\ slotNames (Candidates r)
       = Some <$> filter (fun n => n ≠ "control")
                         (if runConcurrently threeWay
                          then (arrival bFirst).*1 else rangeOrder bFirst).
Proof.
  apply (candidates_in_schedule_order Z threeWay "control" bFirst);
    [registered | scheduled].
Defined.

(** C4.  In the run of [threeWay] where [a] misses the deadline, the
    observation stored for [a] has a nil error: no candidate observation
    named [a] carries an error of any kind. *)
Lemma timed_out_observation_has_nil_error :
  wfSchedule threeWay aLate
  /\ runConcurrently threeWay = true /\ timeout threeWay = Some 500%Z
  /\ ("a", true) ∈ arrival aLate
  /\ exists t r, Run threeWay "control" aLate = (t, Ok r)
       /\ Candidates r
          = [Some {| Name := "b"; Value := Some 3%Z; Err := None |};
             Some {| Name := "a"; Value := None; Err := None |}]
       /\ ~ (exists o terr, Some o ∈ Candidates r /\ Name o = "a" /\ Err o = Some terr).
Proof.
  split; [scheduled|]. split; [reflexivity|]. split; [reflexivity|]. split; [member|].
  eexists _, _. split; [vm_compute; reflexivity|]. split; [reflexivity|].
  intros (o & terr & Hin & Hname & Herr). cbn in Hin.
  apply elem_of_cons in Hin as [[= ->]|Hin]; [done|].
  apply list_elem_of_singleton in Hin as [= ->]. done.
Qed.

Lemma timed_out_behavior_recorded_witness :
  exists t r o, Run threeWay "control" aLate = (t, Ok r)
    /\ Name o = "a" /\ Value o = None /\ Err o = None
    /\ (if decide ("a" = "control") then Control r = Some o else Some o ∈ Candidates r)
    /\ resultErr threeWay "timeout" deadlineExceededError ∈ Errors r
    /\ (("control", false) ∈ arrival aLate -> Control r = Some (observed threeWay "control")).
Proof.
  apply (timed_out_behavior_recorded Z threeWay "control" aLate "a");
    [registered | scheduled | reflexivity | eexists; reflexivity | member].
Defined.

Lemma ignoring_first_decides_witness :
  (ignoring (withIgnores [declines; accepts; breaks]) (Some one) (Some two)
   = ([EvIgnore 0 (Some 1%Z) (Some 2%Z); EvIgnore 1 (Some 1%Z) (Some 2%Z)], Ok (true, None))
   /\ exists r', processObservation (withIgnores [declines; accepts; breaks])
                  emptyResult (Some one) (Some two)
                = ([EvCompare (Some 1%Z) (Some 2%Z); EvIgnore 0 (Some 1%Z) (Some 2%Z);
                    EvIgnore 1 (Some 1%Z) (Some 2%Z)], Ok r')
        /\ Ignored r' = [Some two] /\ Mismatched r' = [] /\ Errors r' = [])
  /\ (ignoring (withIgnores [declines; breaks; accepts]) (Some one) (Some two)
      = ([EvIgnore 0 (Some 1%Z) (Some 2%Z); EvIgnore 1 (Some 1%Z) (Some 2%Z)],
         Ok (false, Some (errorString "ignore failed")))
      /\ exists r', processObservation (withIgnores [declines; breaks; accepts])
                     emptyResult (Some one) (Some two)
                   = ([EvCompare (Some 1%Z) (Some 2%Z); EvIgnore 0 (Some 1%Z) (Some 2%Z);
                       EvIgnore 1 (Some 1%Z) (Some 2%Z)], Ok r')
           /\ Ignored r' = [] /\ Mismatched r' = [Some two]
           /\ Errors r' = [resultErr (withIgnores [declines; breaks; accepts]) "ignore"
                                     (errorString "ignore failed")]).
Proof.
  split.
  - apply (proj1 (ignoring_first_decides Z (withIgnores [declines; accepts; breaks])
                    emptyResult one two [declines] accepts [breaks]
                    [EvCompare (Some 1%Z) (Some 2%Z)] false None
                    eq_refl (Forall_cons_2 _ _ _ eq_refl (Forall_nil_2 _))
                    eq_refl eq_refl)).
    reflexivity.
  - apply (proj2 (ignoring_first_decides Z (withIgnores [declines; breaks; accepts])
                    emptyResult one two [declines] breaks [accepts]
                    [EvCompare (Some 1%Z) (Some 2%Z)] false None
                    eq_refl (Forall_cons_2 _ _ _ eq_refl (Forall_nil_2 _))
                    eq_refl eq_refl) true (errorString "ignore failed")).
    reflexivity.
Defined.

Lemma comparator_error_accumulates_witness :
  exists t r', processObservation allFail emptyResult (Some one) (Some two) = (t, Ok r')
    /\ (exists rest, Errors r' = Errors (emptyResult (V:=Z))
                                ++ resultErr allFail "compare" (errorString "compare failed") :: rest)
    /\ ((Ignored r' = Ignored (emptyResult (V:=Z)) ++ [Some two]
         /\ Mismatched r' = Mismatched (emptyResult (V:=Z)))
        \/ (Ignored r' = Ignored (emptyResult (V:=Z))
            /\ Mismatched r' = Mismatched (emptyResult (V:=Z)) ++ [Some two]))
    /\ (forall ti ib ierr,
          ignoring allFail (Some one) (Some two) = (ti, Ok (ib, Some ierr)) ->
          Errors r' = Errors (emptyResult (V:=Z))
                      ++ [resultErr allFail "compare" (errorString "compare failed");
                          resultErr allFail "ignore" ierr]
          /\ Mismatched r' = Mismatched (emptyResult (V:=Z)) ++ [Some two]
          /\ Ignored r' = Ignored (emptyResult (V:=Z))).
Proof.
  apply (comparator_error_accumulates Z allFail emptyResult one two true
           (errorString "compare failed")); reflexivity.
Defined.


Lemma ignored_mismatched_partition_witness :
  exists t r ctl, Run threeWay "control" bFirst = (t, Ok r)
    /\ Control r = Some ctl
    /\ NoDup (Candidates r)
    /\ (forall o, o ∈ Ignored r -> o ∉ Mismatched r)
    /\ (forall o, o ∈ Ignored r -> o ∈ Candidates r)
    /\ (forall o, o ∈ Mismatched r -> o ∈ Candidates r)
    /\ (forall d, Some d ∈ Candidates r ->
          Some d ∉ Ignored r -> Some d ∉ Mismatched r ->
          exists tm, matching threeWay (Some ctl) (Some d) = (tm, Ok (true, None))).
Proof.
  destruct (ignored_mismatched_partition Z threeWay "control" bFirst) as [Hret Hinv];
    [scheduled|].
  destruct Hret as (t & r & Hrun); [registered|].
  destruct (Hinv t r Hrun) as (ctl & Hprops).
  exists t, r, ctl. split; [exact Hrun|exact Hprops].
Defined.

Lemma timed_out_candidate_is_classified_witness :
  exists t r, Run threeWay "control" aLate = (t, Ok r)
    /\ Some (timedOut "a") ∈ Candidates r
    /\ EvCompare (Some 1%Z) None ∈ t
    /\ Some (timedOut "a") ∈ Mismatched r.
Proof.
  destruct (timed_out_candidate_is_classified Z threeWay "control" aLate "a"
              (fun _ => (Some 1%Z, None)))
    as (t & r & Hrun & Hcand & Hev & Hland);
    [scheduled | reflexivity | eexists; reflexivity | discriminate | member | member
    | vm_compute; reflexivity | reflexivity |].
  exists t, r. split; [exact Hrun|]. split; [exact Hcand|]. split; [exact Hev|].
  cbn in Hland. destruct Hland as (ti & ib & ierr & Hi & Hland).
  injection Hi as <- <- <-. apply Hland.
Defined.

Lemma publisher_sees_no_publish_error_witness :
  exists t1 rp t2 r, Run threeWay "control" aLate = (t1 ++ EvPublish rp :: t2, Ok r)
    /\ (forall r', EvPublish r' ∉ t1 ++ t2)
    /\ (forall x, x ∈ Errors rp -> Operation x ≠ "publish")
    /\ (forall perr, publisher threeWay rp = Some perr ->
          Errors r = Errors rp ++ [resultErr threeWay "publish" perr]
          /\ t2 = [EvReportErrors (Errors r)])
    /\ (publisher threeWay rp = None -> r = rp).
Proof.
  apply (publisher_sees_no_publish_error Z threeWay "control" aLate);
    [registered | scheduled].
Defined.

(** * The further properties on sample runs *)


Lemma observations_are_control_then_candidates_witness :
  exists t r, Run threeWay "control" aLate = (t, Ok r)
    /\ Observations r = Control r :: Candidates r
    /\ length (Observations r) = size (behaviors threeWay)
    /\ Forall is_Some (Observations r).
Proof.
  apply (observations_are_control_then_candidates Z threeWay "control" aLate);
    [registered | scheduled].
Defined.

Lemma errors_in_order_witness :
  exists t r cls pub, Run threeWay "control" aLate = (t, Ok r)
    /\ Errors r = beforeErrors threeWay ++ timeoutErrors threeWay aLate ++ cls ++ pub
    /\ Forall (fun x => Operation x = "compare" \/ Operation x = "ignore") cls
    /\ (pub = [] \/ exists perr, pub = [resultErr threeWay "publish" perr])
    /\ Forall (fun x => ExperimentName x = ExpName threeWay) (Errors r).
Proof.
  apply (errors_in_order Z threeWay "control" aLate); [registered | scheduled].
Defined.

Lemma error_reporter_called_iff_errors_witness :
  exists t r, Run threeWay "control" aLate = (t, Ok r)
    /\ match Errors r with
       | [] => forall errs, EvReportErrors errs ∉ t
       | _ :: _ => exists t0, t = t0 ++ [EvReportErrors (Errors r)]
                              /\ forall errs, EvReportErrors errs ∉ t0
       end.
Proof.
  apply (error_reporter_called_iff_errors Z threeWay "control" aLate);
    [registered | scheduled].
Defined.

Lemma before_run_called_first_witness :
  exists t r, Run threeWay "control" bFirst = (EvBeforeRun :: t, Ok r)
    /\ ~ (EvBeforeRun ∈ t)
    /\ match before threeWay tt with
       | Some berr =>
           exists rest, Errors r = resultErr threeWay "before_run" berr :: rest
                        /\ Forall (fun x => Operation x ≠ "before_run") rest
       | None => Forall (fun x => Operation x ≠ "before_run") (Errors r)
       end.
Proof.
  apply (before_run_called_first Z threeWay "control" bFirst);
    [registered | scheduled].
Defined.

Lemma matched_iff_every_candidate_matches_witness :
  exists t r ctl, Run threeWay "control" bFirst = (t, Ok r)
    /\ Control r = Some ctl
    /\ (IsMatched r = true
        <-> forall d, Some d ∈ Candidates r ->
              exists tm, matching threeWay (Some ctl) (Some d) = (tm, Ok (true, None))).
Proof.
  apply (matched_iff_every_candidate_matches Z threeWay "control" bFirst);
    [registered | scheduled].
Defined.

Lemma same_error_text_is_matched_witness :
  exists t r, Run allFailAlike "control" controlThenA = (t, Ok r)
    /\ IsMatched r = true
    /\ (forall v1 v2, EvCompare v1 v2 ∉ t)
    /\ (forall k v1 v2, EvIgnore k v1 v2 ∉ t).
Proof.
  apply (same_error_text_is_matched Z allFailAlike "control" controlThenA "ok");
    [registered | scheduled | left; reflexivity |].
  intros k b Hb. apply elem_of_map_to_list in Hb. vm_compute in Hb.
  apply elem_of_cons in Hb as [Hb|Hb]; [injection Hb as -> ->|].
  { eexists _, _. split; [reflexivity|]. split; reflexivity. }
  apply elem_of_cons in Hb as [Hb|Hb]; [injection Hb as -> ->|].
  { eexists _, _. split; [reflexivity|]. split; reflexivity. }
  by apply elem_of_nil in Hb.
Defined.

Lemma one_sided_error_is_never_matched_witness :
  exists t r, Run candidateFails "control" controlThenA = (t, Ok r)
    /\ Some (observed candidateFails "a") ∈ Candidates r
    /\ (Some (observed candidateFails "a") ∈ Ignored r
        \/ Some (observed candidateFails "a") ∈ Mismatched r)
    /\ IsMatched r = false.
Proof.
  apply (one_sided_error_is_never_matched Z candidateFails "control" controlThenA "a"
           (fun _ => (Some 1%Z, None)) (fun _ => (None, Some (errorString "boom"))));
    [scheduled | left; reflexivity | vm_compute; reflexivity | discriminate
    | vm_compute; reflexivity |].
  left. split; [reflexivity|]. eexists; reflexivity.
Defined.

Lemma no_predicates_nothing_ignored_witness :
  exists t r ctl, Run threeWay "control" bFirst = (t, Ok r)
    /\ Control r = Some ctl
    /\ Ignored r = [] /\ IsIgnored r = false
    /\ (forall d, Some d ∈ Candidates r ->
          Some d ∈ Mismatched r
          \/ exists tm, matching threeWay (Some ctl) (Some d) = (tm, Ok (true, None))).
Proof.
  apply (no_predicates_nothing_ignored Z threeWay "control" bFirst);
    [registered | scheduled | reflexivity].
Defined.

Lemma ignored_mismatched_keep_order_witness :
  exists t r, Run threeWay "control" bFirst = (t, Ok r)
    /\ Ignored r `sublist_of` Candidates r
    /\ Mismatched r `sublist_of` Candidates r
    /\ length (Ignored r) + length (Mismatched r) <= length (Candidates r).
Proof.
  apply (ignored_mismatched_keep_order Z threeWay "control" bFirst);
    [registered | scheduled].
Defined.

Lemma all_predicates_decline_witness :
  ignoring (withIgnores [declines; declines]) (Some one) (Some two)
  = ([EvIgnore 0 (Some 1%Z) (Some 2%Z); EvIgnore 1 (Some 1%Z) (Some 2%Z)], Ok (false, None))
  /\ exists r', processObservation (withIgnores [declines; declines])
                  emptyResult (Some one) (Some two)
                = ([EvCompare (Some 1%Z) (Some 2%Z); EvIgnore 0 (Some 1%Z) (Some 2%Z);
                    EvIgnore 1 (Some 1%Z) (Some 2%Z)], Ok r')
       /\ Ignored r' = [] /\ Mismatched r' = [Some two] /\ Errors r' = [].
Proof.
  apply (all_predicates_decline Z (withIgnores [declines; declines]) emptyResult one two
           [EvCompare (Some 1%Z) (Some 2%Z)] false None eq_refl eq_refl
           (Forall_cons_2 _ _ _ eq_refl (Forall_cons_2 _ _ _ eq_refl (Forall_nil_2 _)))).
Defined.

Lemma concurrent_without_timeout_is_sequential_witness :
  Run (withMode true None threeWay) "control" aLate
  = Run (withMode false None threeWay) "control" (rangeAsArrival aLate).
Proof.
  apply (concurrent_without_timeout_is_sequential Z threeWay "control" aLate);
    [registered | scheduled].
Defined.

Lemma timeout_errors_count_witness :
  exists t r, Run threeWay "control" aLate = (t, Ok r)
    /\ length (filter (fun x => Operation x = "timeout") (Errors r))
       = length (filter (fun n => runConcurrently threeWay && expired threeWay aLate n = true)
                        (keys threeWay)).
Proof.
  apply (timeout_errors_count Z threeWay "control" aLate); [registered | scheduled].
Defined.

Lemma legacy_agrees_without_errors_witness :
  exists tl rl t r,
    Legacy.Run threeWaySequential bFirst = (tl, Ok rl)
    /\ Run threeWaySequential controlBehavior bFirst = (t, Ok r)
    /\ Control r = Some (Legacy.Control rl)
    /\ Candidates r = Some <$> Legacy.Candidates rl
    /\ Ignored r = Some <$> Legacy.Ignored rl
    /\ Mismatched r = Some <$> Legacy.Mismatched rl
    /\ (exists rp rest, t = EvBeforeRun :: tl ++ EvPublish rp :: rest)
    /\ (fun x => (Operation x, Cause x))
         <$> filter (fun x => Operation x = "compare" \/ Operation x = "ignore") (Errors r)
       = (fun x => (Legacy.Operation x, Legacy.Err x)) <$> Legacy.Errors rl.
Proof.
  apply (legacy_agrees_without_errors Z threeWaySequential bFirst);
    [registered | scheduled | reflexivity |].
  intros k b Hb. apply elem_of_map_to_list in Hb. vm_compute in Hb.
  apply elem_of_cons in Hb as [Hb|Hb]; [injection Hb as -> ->|].
  { eexists. split; reflexivity. }
  apply elem_of_cons in Hb as [Hb|Hb]; [injection Hb as -> ->|].
  { eexists. split; reflexivity. }
  apply elem_of_cons in Hb as [Hb|Hb]; [injection Hb as -> ->|].
  { eexists. split; reflexivity. }
  by apply elem_of_nil in Hb.
Defined.

Lemma legacy_errors_locate_failure_witness :
  exists t (rl : Legacy.Result Z), Legacy.Run allFail bFirst = (t, Ok rl)
    /\ Legacy.Control rl = observed allFail controlBehavior
    /\ Legacy.Candidates rl
       = observed allFail <$> filter (fun n => n ≠ controlBehavior) (rangeOrder bFirst)
    /\ forall x, x ∈ Legacy.Errors rl ->
         Legacy.BehaviorName x ≠ controlBehavior
         /\ is_Some (behaviors allFail !! Legacy.BehaviorName x)
         /\ ((Legacy.Operation x = "compare" /\ Legacy.Index x = (-1)%Z
              /\ (comparator allFail (Value (Legacy.Control rl))
                    (Value (observed allFail (Legacy.BehaviorName x)))).2
                 = Some (Legacy.Err x))
             \/ (Legacy.Operation x = "ignore"
                 /\ exists k q b,
                      Legacy.Index x = Z.of_nat k /\ ignores allFail !! k = Some q
                      /\ q (Value (Legacy.Control rl))
                           (Value (observed allFail (Legacy.BehaviorName x)))
                         = (b, Some (Legacy.Err x)))).
Proof.
  apply (legacy_errors_locate_failure Z allFail bFirst);
    [registered | vm_compute; apply (bool_decide_unpack _); vm_compute; exact I].
Defined.

Lemma publisher_sees_finished_result_witness :
  exists t1 rp t2 r, Run threeWay "control" aLate = (t1 ++ EvPublish rp :: t2, Ok r)
    /\ Control rp = Control r /\ Observations rp = Observations r
    /\ Candidates rp = Candidates r
    /\ Ignored rp = Ignored r /\ Mismatched rp = Mismatched r
    /\ Errors rp `prefix_of` Errors r
    /\ length (Errors r) <= S (length (Errors rp)).
Proof.
  apply (publisher_sees_finished_result Z threeWay "control" aLate);
    [registered | scheduled].
Defined.

Lemma comparator_called_once_per_error_free_pair_witness :
  exists t r ctl cands, Run threeWay "control" aLate = (t, Ok r)
    /\ Control r = Some ctl /\ Candidates r = Some <$> cands
    /\ filter (fun ev => isCompare ev = true) t
       = (fun d => EvCompare (Value ctl) (Value d))
           <$> filter (fun d => carriesError ctl || carriesError d = false) cands.
Proof.
  apply (comparator_called_once_per_error_free_pair Z threeWay "control" aLate);
    [registered | scheduled].
Defined.

